(** * DemoManual: the chat endpoint and the chat page of the RAG frontend

    A shallow embedding of
      - [frontend/app/api/chat/route.ts]  (the [POST] handler), and
      - the chat page component ([ChatPage]: [getConfidenceColor],
        [handleSubmit] and the two conditional sections of a message),
    followed by the properties of the specification that concern them.

    JavaScript values are embedded as follows.
      - A string is its sequence of UTF-16 code units ([list N]); the
        literals of the source are ASCII and are written with [js].
      - A [json] is a value as [JSON.parse] returns it (what
        [await response.json()] yields), not the text it was read from;
        [undefined] is the [None] of [option json].  Its numbers are
        JavaScript numbers, already rounded by the parser: a finite value,
        or an infinity for a literal beyond the range of a double.  A finite
        value is held as the rational it is; the program never computes
        with one (it only tests for zero and compares), so every property
        proved for all rationals holds for the doubles among them (the
        sign of a zero, which nothing in the program observes, is not
        kept).
        [JSON.stringify] writes a number that is not finite as [null]
        ([written]).
      - An object is the list of its own properties in the order
        [Object.entries] and [JSON.stringify] enumerate them.
      - A [try]/[catch] block is a computation in the exception monad
        [Result]; a rejected promise and a [throw] are both [Throw].
    [console.log]/[console.error] write to the server log only and are not
    part of any response; they are left out. *)

From Stdlib Require Import List NArith ZArith QArith Bool Lia.
From Stdlib Require Import Strings.String Strings.Ascii Numbers.DecimalString.
From Stdlib Require Import Numbers.DecimalPos Numbers.DecimalZ.
Import ListNotations.

Set Implicit Arguments.

(* ===================================================================== *)
(** * JavaScript values *)
(* ===================================================================== *)

Module JS.

(** A string: UTF-16 code units. *)
Definition jschar := N.
Definition jsstring := list jschar.

(** An ASCII literal of the source. *)
Definition js (s : string) : jsstring :=
  map N_of_ascii (list_ascii_of_string s).

Fixpoint str_eqb (a b : jsstring) : bool :=
  match a, b with
  | [], [] => true
  | x :: a', y :: b' => N.eqb x y && str_eqb a' b'
  | _, _ => false
  end.

(** [Number.prototype.toString] of an integer (as [Date.now()] is). *)
Definition int_toString (z : Z) : jsstring :=
  js (NilZero.string_of_int (Z.to_int z)).

(** A JavaScript number: the finite values, the two infinities and NaN
    (which [JSON.parse] never returns). *)
Inductive number : Type :=
| Fin (q : Q)
| PosInf
| NegInf
| NaN.

#[warnings="-register-all"] Inductive json : Type :=
| JNull
| JBool (b : bool)
| JNum (n : number)
| JStr (s : jsstring)
| JArr (l : list json)
| JObj (props : list (jsstring * json)).

(** [undefined] is [None]. *)
Definition value := option json.

(** Own property of an object, by key. *)
Fixpoint assoc (k : jsstring) (props : list (jsstring * json)) : value :=
  match props with
  | [] => None
  | (k', v) :: rest => if str_eqb k k' then Some v else assoc k rest
  end.

(** [{...prev, [k]: v}]: [k] keeps its place when present, else goes last. *)
Fixpoint assoc_set {A} (k : jsstring) (v : A) (props : list (jsstring * A))
  : list (jsstring * A) :=
  match props with
  | [] => [(k, v)]
  | (k', v') :: rest =>
      if str_eqb k k' then (k', v) :: rest else (k', v') :: assoc_set k v rest
  end.

(** ToBoolean, on the values [JSON.parse] produces and [undefined]. *)
Definition truthy (v : value) : bool :=
  match v with
  | None => false
  | Some JNull => false
  | Some (JBool b) => b
  | Some (JNum (Fin q)) => negb (Qeq_bool q 0)
  | Some (JNum NaN) => false
  | Some (JNum _) => true
  | Some (JStr s) => match s with [] => false | _ => true end
  | Some (JArr _) => true
  | Some (JObj _) => true
  end.

(** [a || b] *)
Definition or_else (a b : value) : value := if truthy a then a else b.

(** An object literal under [JSON.stringify]: a property whose value is
    [undefined] is not written. *)
Fixpoint object_literal (fields : list (jsstring * value))
  : list (jsstring * json) :=
  match fields with
  | [] => []
  | (k, Some v) :: rest => (k, v) :: object_literal rest
  | (_, None) :: rest => object_literal rest
  end.

(** The value a reader of the text [JSON.stringify(v)] gets back: [v]
    with every number that is not finite replaced by [null]. *)
Fixpoint written (v : json) : json :=
  match v with
  | JNum (Fin q) => JNum (Fin q)
  | JNum _ => JNull
  | JArr l => JArr (map written l)
  | JObj props => JObj (map (fun kv => (fst kv, written (snd kv))) props)
  | JNull | JBool _ | JStr _ => v
  end.

(** ** Exceptions *)

Inductive exn : Type :=
| TypeError
| SyntaxError
| NetworkError
| Error (message : jsstring).

Inductive Result (A : Type) : Type :=
| Ok (a : A)
| Throw (e : exn).
Arguments Ok {A} a.
Arguments Throw {A} e.

Definition bind {A B} (m : Result A) (k : A -> Result B) : Result B :=
  match m with
  | Ok a => k a
  | Throw e => Throw e
  end.

(** [try { m } catch (error) { h error }] *)
Definition try_catch {A} (m : Result A) (h : exn -> A) : A :=
  match m with
  | Ok a => a
  | Throw e => h e
  end.

(** An awaited promise: [None] is a rejection with [e]. *)
Definition await {A} (e : exn) (p : option A) : Result A :=
  match p with
  | Some a => Ok a
  | None => Throw e
  end.

(** [v.k] for the keys the program reads ([question], [answer],
    [references], [evaluation], [llm_evaluation], [scores]): none of them
    is a property of a string, a number, a boolean or an array, so only an
    object can hold them; reading a property of [null] throws. *)
Definition get (v : json) (k : jsstring) : Result value :=
  match v with
  | JNull => Throw TypeError
  | JObj props => Ok (assoc k props)
  | _ => Ok None
  end.

(** [v?.k] *)
Definition opt_get (v : value) (k : jsstring) : value :=
  match v with
  | Some (JObj props) => assoc k props
  | _ => None
  end.

(** [arr.map(f)], where [f] may throw: the first exception aborts. *)
Fixpoint map_result {A B} (f : A -> Result B) (l : list A) : Result (list B) :=
  match l with
  | [] => Ok []
  | x :: rest =>
      bind (f x) (fun y => bind (map_result f rest) (fun ys => Ok (y :: ys)))
  end.

(** [s.split(sep)] for a separator of one code unit: the pieces between
    the occurrences of [sep]; never empty ([''.split('/')] is [['']]). *)
Fixpoint split (sep : jschar) (s : jsstring) : list jsstring :=
  match s with
  | [] => [[]]
  | c :: rest =>
      if N.eqb c sep then [] :: split sep rest
      else match split sep rest with
           | piece :: pieces => (c :: piece) :: pieces
           | [] => [[c]]
           end
  end.

(** [arr.pop()]: the last element, [undefined] for an empty array. *)
Fixpoint pop {A} (l : list A) : option A :=
  match l with
  | [] => None
  | [x] => Some x
  | _ :: rest => pop rest
  end.

(** [arr.join(sep)] on strings. *)
Fixpoint join (sep : jsstring) (l : list jsstring) : jsstring :=
  match l with
  | [] => []
  | [x] => x
  | x :: rest => x ++ sep ++ join sep rest
  end.

(** The white space and line terminators [String.prototype.trim] strips. *)
Definition is_whitespace (c : jschar) : bool :=
  (N.eqb c 9 || N.eqb c 10 || N.eqb c 11 || N.eqb c 12 || N.eqb c 13
   || N.eqb c 32 || N.eqb c 160 || N.eqb c 5760
   || (N.leb 8192 c && N.leb c 8202)
   || N.eqb c 8232 || N.eqb c 8233 || N.eqb c 8239 || N.eqb c 8287
   || N.eqb c 12288 || N.eqb c 65279)%bool.

Fixpoint trimStart (s : jsstring) : jsstring :=
  match s with
  | [] => []
  | c :: rest => if is_whitespace c then trimStart rest else s
  end.

Definition trimEnd (s : jsstring) : jsstring := rev (trimStart (rev s)).

Definition trim (s : jsstring) : jsstring := trimEnd (trimStart s).

Definition Qlt_bool (a b : Q) : bool := negb (Qle_bool b a).

(** [a < b]; any comparison with NaN is false. *)
Definition lt (a b : number) : bool :=
  match a, b with
  | NaN, _ | _, NaN => false
  | Fin x, Fin y => Qlt_bool x y
  | Fin _, PosInf => true
  | Fin _, NegInf => false
  | PosInf, _ => false
  | NegInf, NegInf => false
  | NegInf, _ => true
  end.

(** [a > b] *)
Definition gt (a b : number) : bool := lt b a.

End JS.

(* ===================================================================== *)
(** * The network, as both programs see it *)
(* ===================================================================== *)

Module Http.
Import JS.

(** The arguments of a [fetch] call.  [body] is the value whose
    [JSON.stringify] text is sent. *)
Record FetchRequest : Type := {
  url : jsstring;
  method : jsstring;
  headers : list (jsstring * jsstring);
  body : json
}.

(** What the program reads of a response: [res.ok], [await res.text()]
    and [await res.json()] ([None]: the promise rejects, for [json()] that
    is a body which is not JSON). *)
Record Response : Type := {
  ok : bool;
  text : option jsstring;
  json_body : option json
}.

(** [fetch]: [None] when the promise rejects (no connection, ...). *)
Definition Fetch := FetchRequest -> option Response.

End Http.

(* ===================================================================== *)
(** * frontend/app/api/chat/route.ts *)
(* ===================================================================== *)

Module Route.
Import JS Http.

Notation "x <- m ;; k" := (bind m (fun x => k))
  (at level 61, m at next level, right associativity).

(** What [NextResponse.json(payload, { status })] sends: the status and
    the body, as the value its JSON text denotes. *)
Record NextResponse : Type := {
  status : Z;
  payload : json
}.

Definition NextResponse_json (fields : list (jsstring * value)) (st : Z)
  : NextResponse :=
  {| status := st; payload := written (JObj (object_literal fields)) |}.

(** [process.env.NODE_ENV === 'production' ? ... : ...] *)
Definition API_URL (NODE_ENV : option jsstring) : jsstring :=
  match NODE_ENV with
  | Some env =>
      if str_eqb env (js "production") then js "http://backend:8000"
      else js "http://localhost:8000"
  | None => js "http://localhost:8000"
  end.

Definition slash : jschar := 47%N.

(** The callback of [data.references.map]:
    [(url) => ({ page_url: url, page_title: url.split('/').pop() || url })].
    Only a string has [split]. *)
Definition reference_entry (url : json) : Result json :=
  match url with
  | JStr s =>
      let title := or_else (option_map JStr (pop (split slash s))) (Some url) in
      Ok (JObj (object_literal [(js "page_url", Some url);
                                (js "page_title", title)]))
  | _ => Throw TypeError
  end.

(** What [reference_entry] yields on a string, in closed form (see
    [RouteFacts.reference_entry_string]): the title is the last piece, or
    the URL when that piece is empty. *)
Definition title_of (s : jsstring) : jsstring :=
  match pop (split slash s) with
  | Some (c :: t) => c :: t
  | _ => s
  end.

Definition entry_of (s : jsstring) : json :=
  JObj [(js "page_url", JStr s); (js "page_title", JStr (title_of s))].

(** [v.map(f)]: only an array has [map]. *)
Definition array_map (v : value) (f : json -> Result json)
  : Result (list json) :=
  match v with
  | Some (JArr l) => map_result f l
  | _ => Throw TypeError
  end.

Definition default_scores : json :=
  JObj [(js "factual_accuracy", JNum (Fin 0));
        (js "relevance", JNum (Fin 0));
        (js "completeness", JNum (Fin 0));
        (js "context_usage", JNum (Fin 0))].

(** The object handed to [NextResponse.json] on the success path. *)
Definition transform (data : json) : Result (list (jsstring * value)) :=
  answer <- get data (js "answer") ;;
  references <- get data (js "references") ;;
  refs <- array_map references reference_entry ;;
  evaluation <- get data (js "evaluation") ;;
  let scores :=
    or_else (opt_get (opt_get evaluation (js "llm_evaluation")) (js "scores"))
            (Some default_scores) in
  Ok [(js "answer", answer);
      (js "references", Some (JArr refs));
      (js "scores", scores)].

(** The payload of the success path, given its three fields. *)
Definition success_payload (a : value) (entries : list json) (sc : json) : json :=
  written (JObj (object_literal [(js "answer", a);
                                 (js "references", Some (JArr entries));
                                 (js "scores", Some sc)])).

(** The request sent to the backend; its body is the text of
    [JSON.stringify({ question })]. *)
Definition backend_request (NODE_ENV : option jsstring) (question : value)
  : FetchRequest :=
  {| url := API_URL NODE_ENV ++ js "/generate";
     method := js "POST";
     headers := [(js "Content-Type", js "application/json")];
     body := written (JObj (object_literal [(js "question", question)])) |}.

(** The [try] block.  [request_json] is [await request.json()]. *)
Definition POST_try (NODE_ENV : option jsstring) (fetch : Fetch)
    (request_json : option json) : Result NextResponse :=
  req <- await SyntaxError request_json ;;
  question <- get req (js "question") ;;
  response <- await NetworkError (fetch (backend_request NODE_ENV question)) ;;
  if negb (ok response) then
    errorText <- await NetworkError (text response) ;;
    Throw (Error (js "Failed to fetch from backend: " ++ errorText))
  else
    data <- await SyntaxError (json_body response) ;;
    fields <- transform data ;;
    Ok (NextResponse_json fields 200%Z).

Definition error_response : NextResponse :=
  NextResponse_json [(js "error", Some (JStr (js "Failed to process request")))]
                    500%Z.

Definition POST (NODE_ENV : option jsstring) (fetch : Fetch)
    (request_json : option json) : NextResponse :=
  try_catch (POST_try NODE_ENV fetch request_json) (fun _ => error_response).

End Route.

(* ===================================================================== *)
(** * The chat page ([ChatPage]) *)
(* ===================================================================== *)

Module ChatPage.
Import JS.

Notation "x <- m ;; k" := (bind m (fun x => k))
  (at level 61, m at next level, right associativity).

Inductive MessageType : Type := user | agent.

(** An optional property ([references?], [scores?]) of an object literal:
    left out, or written with a value (which may be [undefined]). *)
Inductive field : Type :=
| Absent
| Present (v : value).

(** Reading the property: an absent one reads as [undefined]. *)
Definition read (f : field) : value :=
  match f with
  | Absent => None
  | Present v => v
  end.

(** [interface Message].  The two optional properties hold whatever
    [res.json()] delivered: the declared types are not checked at run time. *)
Record Message : Type := {
  id : jsstring;
  type : MessageType;
  text : jsstring;
  references : field;
  scores : field
}.

(** The [useState] cells of the component that [handleSubmit] touches
    ([loadingState] only drives the animation of the waiting dots). *)
Record State : Type := {
  question : jsstring;
  loading : bool;
  messages : list Message;
  showReferences : list (jsstring * bool)
}.

Definition setQuestion (q : jsstring) (st : State) : State :=
  {| question := q; loading := loading st; messages := messages st;
     showReferences := showReferences st |}.

Definition setLoading (b : bool) (st : State) : State :=
  {| question := question st; loading := b; messages := messages st;
     showReferences := showReferences st |}.

Definition setMessages (f : list Message -> list Message) (st : State) : State :=
  {| question := question st; loading := loading st;
     messages := f (messages st); showReferences := showReferences st |}.

Definition setShowReferences
    (f : list (jsstring * bool) -> list (jsstring * bool)) (st : State) : State :=
  {| question := question st; loading := loading st; messages := messages st;
     showReferences := f (showReferences st) |}.

Definition green : jsstring := js "bg-green-100 text-green-800".
Definition red : jsstring := js "bg-red-100 text-red-800".
Definition yellow : jsstring := js "bg-yellow-100 text-yellow-800".

Definition getConfidenceColor (score : number) : jsstring :=
  if gt score (Fin 8) then green
  else if lt score (Fin 5) then red
  else yellow.

Definition apology : jsstring :=
  js "I apologize, but I encountered an error while processing your request. Please try asking your question again.".

Definition space : jschar := 32%N.
Definition newline : jschar := 10%N.

(** The request [fetch('/api/chat', ...)] sends. *)
Definition chat_request (q : jsstring) : Http.FetchRequest :=
  {| Http.url := js "/api/chat";
     Http.method := js "POST";
     Http.headers := [(js "Content-Type", js "application/json")];
     Http.body := JObj [(js "question", JStr q)] |}.

Section Component.

(** Operations of the language the page calls and that are not modelled
    further: [String.prototype.toLowerCase], the string conversion of a
    template literal (it throws a TypeError for an object without a usable
    [toString], such as one parsed from [{"toString": 1}]), and the number
    conversion of a comparison. *)
Variable toLowerCase : jsstring -> jsstring.
Variable template_toString : value -> Result jsstring.
Variable toNumber : json -> number.

(** The [try] block of [handleSubmit]: the state updates it ends with, or
    the exception it stops at.  [q] is the question the handler closed
    over, [now] the clock when the reply is built. *)
Definition reply (fetch : Http.Fetch) (q : jsstring) (now : Z)
  : Result (State -> State) :=
  res <- await NetworkError (fetch (chat_request q)) ;;
  if negb (Http.ok res) then Throw (Error (js "Failed to get response"))
  else
    data <- await SyntaxError (Http.json_body res) ;;
    let agentMessageId := int_toString (now + 1) in
    let questionTopic :=
      join [space] (firstn 3 (split space (toLowerCase q))) in
    answer <- get data (js "answer") ;;
    answer_text <- template_toString answer ;;
    refs <- get data (js "references") ;;
    sc <- get data (js "scores") ;;
    let agentMessage :=
      {| id := agentMessageId;
         type := agent;
         text := questionTopic ++ js ". Here's what I found:"
                 ++ [newline; newline] ++ answer_text;
         references := Present refs;
         scores := Present sc |} in
    Ok (fun st =>
          setShowReferences (assoc_set agentMessageId false)
            (setMessages (fun prev => prev ++ [agentMessage]) st)).

(** The [catch] block. *)
Definition on_error (now : Z) (st : State) : State :=
  setMessages (fun prev =>
    prev ++ [{| id := int_toString (now + 1);
                type := agent;
                text := apology;
                references := Absent;
                scores := Absent |}]) st.

(** [handleSubmit]: the state after the handler has run, and the requests
    it sent.  [now_submit] and [now_reply] are the two readings of
    [Date.now()]. *)
Definition handleSubmit (fetch : Http.Fetch) (now_submit now_reply : Z)
    (st : State) : State * list Http.FetchRequest :=
  let q := question st in
  if negb (truthy (Some (JStr (trim q)))) then (st, [])
  else
    let userMessage :=
      {| id := int_toString now_submit; type := user; text := q;
         references := Absent; scores := Absent |} in
    let st1 :=
      setLoading true
        (setQuestion []
           (setMessages (fun prev => prev ++ [userMessage]) st)) in
    let update :=
      try_catch (reply fetch q now_reply) (fun _ => on_error now_reply) in
    (setLoading false (update st1), [chat_request q]).

(** [v.length > 0] *)
Definition length_positive (v : value) : bool :=
  match v with
  | Some (JArr l) => Nat.ltb 0 (List.length l)
  | Some (JStr s) => Nat.ltb 0 (List.length s)
  | Some (JObj props) =>
      match assoc (js "length") props with
      | Some n => gt (toNumber n) (Fin 0)
      | None => false
      end
  | _ => false
  end.

(** [message.type === 'agent' && message.scores]: the guard of the
    "Evaluation Scores" block.  When it is false the block is skipped;
    when it is true the body of the block is evaluated
    ([ChatView.evaluation_rows]), and that can throw. *)
Definition renders_scores (m : Message) : bool :=
  match type m with
  | agent => truthy (read (scores m))
  | user => false
  end.

(** [message.type === 'agent' && message.references &&
     message.references.length > 0]: the guard of the references block
    (skipped when false). *)
Definition renders_references (m : Message) : bool :=
  match type m with
  | agent =>
      truthy (read (references m)) && length_positive (read (references m))
  | user => false
  end.

End Component.

End ChatPage.

(* ===================================================================== *)
(** * The vocabulary of the specification *)
(* ===================================================================== *)

Module Spec.
Import JS Http Route.

(** The field [k] of a value, when it is an object that has one. *)
Definition fld (v : json) (k : string) : value := opt_get (Some v) (js k).

(** The endpoint received [data] from the backend: the request body was
    read, the call to the backend returned an ok response, and its body
    parsed to [data] (line 28 of route.ts is reached with [data]). *)
Definition backend_answers (NODE_ENV : option jsstring) (fetch : Fetch)
    (request_json : option json) (data : json) : Prop :=
  exists req question resp,
    request_json = Some req /\
    get req (js "question") = Ok question /\
    fetch (backend_request NODE_ENV question) = Some resp /\
    ok resp = true /\
    json_body resp = Some data.

(** The elements of the [references] array of a payload. *)
Definition references_of (v : json) : list json :=
  match fld v "references" with
  | Some (JArr l) => l
  | _ => []
  end.

(** The [page_url] of every entry of a list of references. *)
Definition page_urls (entries : list json) : list json :=
  flat_map (fun e => match fld e "page_url" with
                     | Some u => [u]
                     | None => []
                     end) entries.




(** The scores block the backend supplies. *)
Definition backend_scores (data : json) : value :=
  opt_get (opt_get (fld data "evaluation") (js "llm_evaluation")) (js "scores").

(** The evaluation scores are missing from [data]: no [evaluation] field,
    no [llm_evaluation] field in it, or no [scores] field in that. *)
Definition scores_missing (data : json) : Prop :=
  fld data "evaluation" = None \/
  (exists e, fld data "evaluation" = Some e /\ fld e "llm_evaluation" = None) \/
  (exists e l, fld data "evaluation" = Some e /\
               fld e "llm_evaluation" = Some l /\ fld l "scores" = None).

(** The five score fields of the specification's EvaluationResult, and
    the four the frontend knows. *)
Definition five_score_fields : list string :=
  ["factual_accuracy"; "relevance"; "completeness"; "context_usage";
   "semantic_similarity"]%string.

Definition four_score_fields : list string :=
  ["factual_accuracy"; "relevance"; "completeness"; "context_usage"]%string.

(** The response has a [scores] object in which every field of [names]
    is present and 0. *)
Definition zero_scores (names : list string) (r : NextResponse) : Prop :=
  exists block,
    fld (payload r) "scores" = Some block /\
    Forall (fun k => fld block k = Some (JNum (Fin 0))) names.

(** The [references] of [data] are an array of strings. *)
Definition string_references (data : json) (urls : list jsstring) : Prop :=
  fld data "references" = Some (JArr (map JStr urls)).

(** The response shape of the specification's query boundary:
    [{answer: string, references: [url...], evaluation: {scores...}}]. *)
Definition boundary_shape (p : json) : Prop :=
  (exists a, fld p "answer" = Some (JStr a)) /\
  (exists urls, fld p "references" = Some (JArr (map JStr urls))) /\
  (exists ev sc, fld p "evaluation" = Some ev /\ fld ev "scores" = Some sc).

(** The response shape the endpoint produces:
    [{answer, references: [{page_url, page_title}...], scores}]. *)
Definition is_reference_entry (e : json) : Prop :=
  exists u t, e = JObj [(js "page_url", JStr u); (js "page_title", JStr t)].

Definition chat_shape (p : json) : Prop :=
  exists a entries sc,
    p = JObj [(js "answer", JStr a); (js "references", JArr entries);
              (js "scores", sc)] /\
    Forall is_reference_entry entries.

(** A stage of the endpoint fails. *)
Inductive stage_fails (NODE_ENV : option jsstring) (fetch : Fetch)
  : option json -> Prop :=
| body_not_json :
    stage_fails NODE_ENV fetch None
| body_null :
    stage_fails NODE_ENV fetch (Some JNull)
| fetch_throws req question :
    get req (js "question") = Ok question ->
    fetch (backend_request NODE_ENV question) = None ->
    stage_fails NODE_ENV fetch (Some req)
| backend_not_ok req question resp :
    get req (js "question") = Ok question ->
    fetch (backend_request NODE_ENV question) = Some resp ->
    ok resp = false ->
    stage_fails NODE_ENV fetch (Some req)
| backend_body_not_json req question resp :
    get req (js "question") = Ok question ->
    fetch (backend_request NODE_ENV question) = Some resp ->
    ok resp = true ->
    json_body resp = None ->
    stage_fails NODE_ENV fetch (Some req)
| transform_throws req question resp data e :
    get req (js "question") = Ok question ->
    fetch (backend_request NODE_ENV question) = Some resp ->
    ok resp = true ->
    json_body resp = Some data ->
    transform data = Throw e ->
    stage_fails NODE_ENV fetch (Some req).

(** The payload the specification describes for a hard failure: an
    apology message (a string in a field other than the error indicator),
    empty references, a zeroed or absent scores block, an error indicator
    and a status outside 200..299. *)
Definition apology_payload (r : NextResponse) : Prop :=
  (exists k msg, k <> "error"%string /\ fld (payload r) k = Some (JStr msg)) /\
  fld (payload r) "references" = Some (JArr []) /\
  (fld (payload r) "scores" = None \/ zero_scores four_score_fields r) /\
  (exists e, fld (payload r) "error" = Some e) /\
  ~ (200 <= status r < 300)%Z.

(** The payload the endpoint sends on failure: the error indicator alone. *)
Definition error_only (r : NextResponse) : Prop :=
  payload r = JObj [(js "error", JStr (js "Failed to process request"))] /\
  status r = 500%Z.

(** The request body is a valid [{question: string}]. *)
Definition valid_question_body (request_json : option json) : Prop :=
  exists req q, request_json = Some req /\ fld req "question" = Some (JStr q).

(** [data] is a successful answer of the backend: it has a string
    [answer] and a [references] array of strings. *)
Definition successful_answer (data : json) : Prop :=
  exists a urls, fld data "answer" = Some (JStr a) /\ string_references data urls.

(** An error payload with a status outside 200..299. *)
Definition error_payload (r : NextResponse) : Prop :=
  (exists e, fld (payload r) "error" = Some e) /\ ~ (200 <= status r < 300)%Z.

(** A score above / below a bound, in the order of the rationals
    extended with the infinities; NaN is neither. *)
Definition above (b : Q) (s : number) : Prop :=
  match s with
  | Fin q => (b < q)%Q
  | PosInf => True
  | NegInf | NaN => False
  end.

Definition below (b : Q) (s : number) : Prop :=
  match s with
  | Fin q => (q < b)%Q
  | NegInf => True
  | PosInf | NaN => False
  end.

(** A question that is empty or only white space. *)
Definition blank (q : jsstring) : Prop :=
  Forall (fun c => is_whitespace c = true) q.

(** The call of the chat API fails: [fetch] throws or the response is
    not ok. *)
Definition api_call_fails (fetch : Fetch) (q : jsstring) : Prop :=
  fetch (ChatPage.chat_request q) = None \/
  exists res, fetch (ChatPage.chat_request q) = Some res /\ ok res = false.

End Spec.

(* ===================================================================== *)
(** * Sample exchanges *)
(* ===================================================================== *)

Module Samples.
Import JS Http Route.

(** A request body [{question: q}]. *)
Definition ask (q : string) : option json :=
  Some (JObj [(js "question", JStr (js q))]).

(** A backend that answers every request with status 200 and body [data]. *)
Definition respond (data : json) : Fetch :=
  fun _ => Some {| ok := true; text := Some (js ""); json_body := Some data |}.

(** A backend that cannot be reached. *)
Definition offline : Fetch := fun _ => None.

(** A backend that answers with an error status. *)
Definition refuse : Fetch :=
  fun _ => Some {| ok := false; text := Some (js "Internal Server Error");
                   json_body := None |}.

Definition returns_url : jsstring := js "https://shop.example/faq/returns".
Definition faq_url : jsstring := js "https://shop.example/faq/".

Definition scores_block (fa rel comp cu : Q) : json :=
  JObj [(js "factual_accuracy", JNum (Fin fa)); (js "relevance", JNum (Fin rel));
        (js "completeness", JNum (Fin comp)); (js "context_usage", JNum (Fin cu))].

Definition answer_with (refs : list jsstring) (evaluation : list (jsstring * json))
  : json :=
  JObj ([(js "answer", JStr (js "Returns accepted within 30 days."));
         (js "references", JArr (map JStr refs))] ++ evaluation).

Definition evaluated (block : json) : list (jsstring * json) :=
  [(js "evaluation", JObj [(js "llm_evaluation", JObj [(js "scores", block)])])].

(** A complete answer, scores within the scale. *)
Definition data_full : json :=
  answer_with [returns_url; faq_url] (evaluated (scores_block 9 8 7 6)).

(** An answer without [evaluation]. *)
Definition data_unevaluated : json := answer_with [returns_url] [].


(** An answer that names the same page twice. *)
Definition data_repeated : json :=
  answer_with [returns_url; faq_url; returns_url] (evaluated (scores_block 9 8 7 6)).

(** An answer without [references] and without [evaluation]. *)
Definition data_bare : json := JObj [(js "answer", JStr (js "hello"))].

(** The chat page with a question typed in, and with a blank one. *)
Definition typed (q : string) : ChatPage.State :=
  {| ChatPage.question := js q; ChatPage.loading := false;
     ChatPage.messages := []; ChatPage.showReferences := [] |}.

(** Instances of the three operations the page is parameterised by, for
    the sample exchanges: lower-casing on the ASCII letters; the string
    conversion on [undefined], [null], booleans, strings and objects (the
    text of a number or an array needs number formatting and is left
    empty: no sample uses one); the number conversion on numbers. *)
Definition lower_ascii (s : jsstring) : jsstring :=
  map (fun c => if (N.leb 65 c && N.leb c 90)%bool then (c + 32)%N else c) s.

Definition show_string (v : value) : Result jsstring :=
  match v with
  | Some (JStr s) => Ok s
  | Some (JObj props) =>
      match assoc (js "toString") props with
      | Some _ => Throw TypeError
      | None => Ok (js "[object Object]")
      end
  | Some JNull => Ok (js "null")
  | Some (JBool true) => Ok (js "true")
  | Some (JBool false) => Ok (js "false")
  | None => Ok (js "undefined")
  | Some (JNum _) | Some (JArr _) => Ok []
  end.

Definition number_of (v : json) : number :=
  match v with
  | JNum n => n
  | _ => NaN
  end.

End Samples.

(* ===================================================================== *)
(** * The rest of the chat page: topic, loading animation, references
      toggle, score rows *)
(* ===================================================================== *)

Module ChatView.
Import JS ChatPage.

(** [question.toLowerCase().split(' ').slice(0, 3).join(' ')], the
    [questionTopic] of [handleSubmit]. *)
Definition questionTopic (toLowerCase : jsstring -> jsstring) (q : jsstring)
  : jsstring :=
  join [space] (firstn 3 (split space (toLowerCase q))).

(** The three messages [handleSubmit] builds: the user's, the agent's
    reply to the parsed body [data] (a property of [data] that is missing
    reads as [undefined]; [answer_text] is the answer as the template
    literal converted it), and the apology of the [catch] block. *)
Definition user_message (now : Z) (q : jsstring) : Message :=
  {| id := int_toString now; type := user; text := q;
     references := Absent; scores := Absent |}.

Definition agent_message (toLowerCase : jsstring -> jsstring)
    (answer_text : jsstring) (now : Z) (q : jsstring)
    (data : json) : Message :=
  {| id := int_toString (now + 1);
     type := agent;
     text := questionTopic toLowerCase q ++ js ". Here's what I found:"
             ++ [newline; newline] ++ answer_text;
     references := Present (opt_get (Some data) (js "references"));
     scores := Present (opt_get (Some data) (js "scores")) |}.

Definition apology_message (now : Z) : Message :=
  {| id := int_toString (now + 1); type := agent; text := apology;
     references := Absent; scores := Absent |}.

(** [showReferences[id]]: [undefined] when the object has no such key. *)
Fixpoint lookup (id : jsstring) (m : list (jsstring * bool)) : option bool :=
  match m with
  | [] => None
  | (k, b) :: rest => if str_eqb id k then Some b else lookup id rest
  end.

(** [showReferences[id]] as a condition: [undefined] is falsy. *)
Definition shown (m : list (jsstring * bool)) (id : jsstring) : bool :=
  match lookup id m with
  | Some b => b
  | None => false
  end.

(** The [onClick] of the references button of message [id]:
    [setShowReferences(prev => ({...prev, [id]: !prev[id]}))]. *)
Definition toggleReferences (id : jsstring) (st : State) : State :=
  setShowReferences (fun prev => assoc_set id (negb (shown prev id)) prev) st.

(** ** The loading animation *)

Inductive Stage : Type := understanding | searching | generating.

(** [interface LoadingState]; [stage] is [None] for [null]. *)
Record LoadingState : Type := {
  stage : option Stage;
  dots : Z
}.

Definition stages : list Stage := [understanding; searching; generating].

(** [stages[i]] *)
Definition stage_at (i : Z) : option Stage :=
  if (i <? 0)%Z then None else nth_error stages (Z.to_nat i).

(** What the effect sets when [loading] is false, and the initial state. *)
Definition idle : LoadingState := {| stage := None; dots := 0 |}.

(** One run of the [setInterval] callback.  The first component is the
    [stageIndex] variable of the effect's closure; [%] is the truncated
    remainder. *)
Definition tick (c : Z * LoadingState) : Z * LoadingState :=
  let (stageIndex, prev) := c in
  let newDots := Z.rem (dots prev + 1) 4 in
  let stageIndex' :=
    if (newDots =? 0)%Z
    then Z.rem (stageIndex + 1) (Z.of_nat (List.length stages))
    else stageIndex in
  (stageIndex', {| stage := stage_at stageIndex'; dots := newDots |}).

(** The animation [n] callbacks after [loading] became true:
    [stageIndex] starts at 0, the state is the idle one. *)
Definition after_ticks (n : nat) : Z * LoadingState :=
  Nat.iter n tick (0%Z, idle).

Definition stage_message (s : Stage) : jsstring :=
  match s with
  | understanding => js "Understanding your query"
  | searching => js "Searching through knowledge base"
  | generating => js "Generating helpful response"
  end.

Definition dot : jschar := 46%N.

(** [getLoadingMessage]; ['.'.repeat(n)] throws a RangeError for a
    negative [n], which is the [None] here. *)
Definition getLoadingMessage (ls : LoadingState) : option jsstring :=
  match stage ls with
  | None => Some []
  | Some s =>
      if (dots ls <? 0)%Z then None
      else Some (stage_message s ++ repeat dot (Z.to_nat (dots ls)))
  end.

(** ** The rows of the evaluation-scores block *)

Definition underscore : jschar := 95%N.

(** [key.replace(/_/g, ' ')] *)
Definition score_label (key : jsstring) : jsstring :=
  map (fun c => if N.eqb c underscore then space else c) key.

(** [Object.entries(v)]: the properties of an object, the indexed
    elements of an array, the indexed code units of a string, nothing for
    a number or a boolean; [null] throws. *)
Fixpoint indexed {A} (i : Z) (l : list A) : list (jsstring * A) :=
  match l with
  | [] => []
  | x :: rest => (int_toString i, x) :: indexed (i + 1) rest
  end.

Definition entries (v : json) : Result (list (jsstring * json)) :=
  match v with
  | JNull => Throw TypeError
  | JObj props => Ok props
  | JArr l => Ok (indexed 0 l)
  | JStr s => Ok (indexed 0 (map (fun c => JStr [c]) s))
  | JNum _ | JBool _ => Ok []
  end.

(** One row of the block, the callback of
    [Object.entries(message.scores).map]: the label, the colour class of
    the badge and its text [score.toFixed(1)] (the formatting [toFixed] is
    a parameter).  Only a number has [toFixed]: any other score throws a
    TypeError. *)
Definition score_row (toFixed : number -> jsstring)
    (kv : jsstring * json) : Result (jsstring * jsstring * jsstring) :=
  match snd kv with
  | JNum n => Ok (score_label (fst kv), getConfidenceColor n, toFixed n)
  | _ => Throw TypeError
  end.

(** The "Evaluation Scores" block of a message: [None] when its guard
    skips it, the rows when it is rendered, an exception when a row
    throws (React then unmounts the page). *)
Definition evaluation_rows (toFixed : number -> jsstring) (m : Message)
  : Result (option (list (jsstring * jsstring * jsstring))) :=
  if renders_scores m then
    match read (scores m) with
    | Some v =>
        bind (entries v) (fun es =>
        bind (map_result (score_row toFixed) es) (fun rows => Ok (Some rows)))
    | None => Ok None
    end
  else Ok None.

(** The colours from worst to best. *)
Definition color_rank (c : jsstring) : nat :=
  if str_eqb c green then 2 else if str_eqb c yellow then 1 else 0.

End ChatView.

(* ===================================================================== *)
(** * The page served by the route *)
(* ===================================================================== *)

Module App.
Import JS Http.

(** The value is a number that is not finite and not NaN: truthy for
    [||], yet written as [null]. *)
Definition is_infinite (v : value) : bool :=
  match v with
  | Some (JNum PosInf) | Some (JNum NegInf) => true
  | _ => false
  end.

(** [res.ok]: the status is in the range 200..299. *)
Definition status_ok (st : Z) : bool := ((200 <=? st) && (st <=? 299))%Z.

Section Served.

(** The text of a JSON value (the page never reads it). *)
Variable stringify : json -> jsstring.

(** The [fetch] of the page when [/api/chat] is served by the [POST] of
    route.ts in front of [backend]: the handler reads back the value the
    page stringified, and the page receives the handler's response. *)
Definition api_chat (NODE_ENV : option jsstring) (backend : Fetch) : Fetch :=
  fun req =>
    let r := Route.POST NODE_ENV backend (Some (body req)) in
    Some {| ok := status_ok (Route.status r);
            text := Some (stringify (Route.payload r));
            json_body := Some (Route.payload r) |}.

End Served.

End App.

(* ===================================================================== *)
(** * Facts about route.ts *)
(* ===================================================================== *)

Module RouteFacts.
Import JS Http Route Spec.

(** ** [split] and [pop] *)

Lemma split_nonempty (sep : jschar) (s : jsstring) : split sep s <> [].
Proof.
  destruct s as [|c rest]; simpl; [discriminate|].
  destruct (N.eqb c sep); [discriminate|].
  destruct (split sep rest); discriminate.
Qed.


Lemma pop_skip {A} (x : A) (l : list A) : l <> [] -> pop (x :: l) = pop l.
Proof. destruct l; [congruence | reflexivity]. Qed.



(** ** The entry of one reference *)

Lemma reference_entry_string (s : jsstring) :
  reference_entry (JStr s) = Ok (entry_of s).
Proof.
  unfold reference_entry, entry_of, title_of.
  destruct (pop (split slash s)) as [[|c t]|]; reflexivity.
Qed.

Lemma reference_entry_ok (url e : json) :
  reference_entry url = Ok e -> exists s, url = JStr s /\ e = entry_of s.
Proof.
  destruct url; try discriminate.
  rewrite reference_entry_string.
  intros [= <-]; eauto.
Qed.

Lemma map_entries_strings (urls : list jsstring) :
  map_result reference_entry (map JStr urls) = Ok (map entry_of urls).
Proof.
  induction urls as [|u urls IH]; [reflexivity|].
  cbn [map map_result].
  now rewrite reference_entry_string, IH.
Qed.

Lemma map_entries_ok (l refs : list json) :
  map_result reference_entry l = Ok refs ->
  exists urls, l = map JStr urls /\ refs = map entry_of urls.
Proof.
  revert refs; induction l as [|x l IH]; intros refs; cbn [map_result].
  - intros [= <-]; now exists [].
  - destruct (reference_entry x) as [e|] eqn:He; [|discriminate].
    apply reference_entry_ok in He as (s & -> & ->).
    cbn [bind].
    destruct (map_result reference_entry l) as [es|]; [|discriminate].
    destruct (IH es eq_refl) as (urls & -> & ->).
    intros [= <-]; now exists (s :: urls).
Qed.

Lemma page_urls_entries (urls : list jsstring) :
  page_urls (map entry_of urls) = map JStr urls.
Proof.
  induction urls as [|u urls IH]; [reflexivity|].
  change (page_urls (map entry_of (u :: urls)))
    with (JStr u :: page_urls (map entry_of urls)).
  now rewrite IH.
Qed.

Lemma entry_is_reference_entry (urls : list jsstring) :
  Forall is_reference_entry (map entry_of urls).
Proof.
  apply Forall_forall; intros e Hin.
  apply in_map_iff in Hin as (u & <- & _).
  now exists u, (title_of u).
Qed.

(** ** [js] and [str_eqb] *)

Lemma str_eqb_eq (a b : jsstring) : str_eqb a b = true <-> a = b.
Proof.
  revert b; induction a as [|x a IH]; intros [|y b]; simpl;
    try (split; [discriminate | congruence]); [tauto|].
  rewrite andb_true_iff, N.eqb_eq, IH.
  split; [intros [-> ->]; reflexivity | intros [= -> ->]; auto].
Qed.

Lemma js_injective (a b : string) : js a = js b -> a = b.
Proof.
  unfold js; intros H.
  rewrite <- (string_of_list_ascii_of_string a),
          <- (string_of_list_ascii_of_string b).
  f_equal.
  revert H; generalize (list_ascii_of_string a) (list_ascii_of_string b).
  induction l as [|x l IH]; intros [|y l']; simpl; try discriminate; auto.
  intros [= Hxy Hl].
  f_equal; [|now apply IH].
  rewrite <- (ascii_N_embedding x), <- (ascii_N_embedding y).
  now rewrite Hxy.
Qed.

(** ** The success path *)

Lemma or_else_default (v : value) (d : json) :
  exists sc, or_else v (Some d) = Some sc /\
             (truthy v = true /\ v = Some sc \/ truthy v = false /\ sc = d).
Proof.
  unfold or_else; destruct (truthy v) eqn:Ht.
  - destruct v as [x|]; [|discriminate]. exists x; auto.
  - exists d; auto.
Qed.

Lemma transform_ok (data : json) (fields : list (jsstring * value)) :
  transform data = Ok fields ->
  exists props urls,
    data = JObj props /\
    assoc (js "references") props = Some (JArr (map JStr urls)) /\
    fields = [(js "answer", assoc (js "answer") props);
              (js "references", Some (JArr (map entry_of urls)));
              (js "scores", or_else (backend_scores data) (Some default_scores))].
Proof.
  unfold transform, backend_scores, fld.
  destruct data as [| | | | |props]; cbn [get bind array_map]; try discriminate.
  destruct (assoc (js "references") props) as [[| | | |l|]|] eqn:Hrefs;
    cbn [array_map bind]; try discriminate.
  destruct (map_result reference_entry l) as [refs|] eqn:Hmap; [|discriminate].
  apply map_entries_ok in Hmap as (urls & -> & ->).
  cbn [bind]; intros [= <-].
  exists props, urls; auto.
Qed.

Lemma transform_object (props : list (jsstring * json)) (urls : list jsstring) :
  assoc (js "references") props = Some (JArr (map JStr urls)) ->
  transform (JObj props) =
    Ok [(js "answer", assoc (js "answer") props);
        (js "references", Some (JArr (map entry_of urls)));
        (js "scores", or_else (backend_scores (JObj props)) (Some default_scores))].
Proof.
  intros Hrefs.
  unfold transform; cbn [get bind].
  rewrite Hrefs; cbn [array_map].
  rewrite map_entries_strings; reflexivity.
Qed.

(** Once the backend has answered, the response is decided by [transform]. *)
Lemma POST_answered env fetch rq data :
  backend_answers env fetch rq data ->
  POST env fetch rq =
    match transform data with
    | Ok fields => NextResponse_json fields 200
    | Throw _ => error_response
    end.
Proof.
  intros (req & question & resp & -> & Hq & Hfetch & Hok & Hjson).
  unfold POST, POST_try; cbn [await bind].
  rewrite Hq; cbn [bind].
  rewrite Hfetch; cbn [await bind].
  rewrite Hok, Hjson; cbn [negb await bind].
  destruct (transform data); reflexivity.
Qed.

(** Writing an entry changes nothing: it holds strings only. *)
Lemma written_entries (urls : list jsstring) :
  map written (map entry_of urls) = map entry_of urls.
Proof.
  rewrite map_map. apply map_ext. reflexivity.
Qed.

Lemma success_payload_references a urls sc :
  references_of (success_payload a (map entry_of urls) sc) = map entry_of urls.
Proof.
  rewrite <- (written_entries urls) at 2.
  destruct a; reflexivity.
Qed.

Lemma success_payload_scores a entries sc :
  fld (success_payload a entries sc) "scores" = Some (written sc).
Proof. destruct a; reflexivity. Qed.

Lemma POST_answered_cases env fetch rq data :
  backend_answers env fetch rq data ->
  (exists props urls sc,
      data = JObj props /\
      assoc (js "references") props = Some (JArr (map JStr urls)) /\
      or_else (backend_scores data) (Some default_scores) = Some sc /\
      POST env fetch rq =
        {| status := 200;
           payload := success_payload (assoc (js "answer") props)
                                      (map entry_of urls) sc |})
  \/ ((exists e, transform data = Throw e) /\ POST env fetch rq = error_response).
Proof.
  intros Hans; rewrite (POST_answered Hans).
  destruct (transform data) as [fields|e] eqn:Ht; [left | right; eauto].
  apply transform_ok in Ht as (props & urls & -> & Hrefs & ->).
  destruct (or_else_default (backend_scores (JObj props)) default_scores)
    as (sc & Hsc & _).
  exists props, urls, sc; repeat split; auto.
  unfold NextResponse_json, success_payload; now rewrite Hsc.
Qed.

Lemma default_scores_written : written default_scores = default_scores.
Proof. reflexivity. Qed.

(** ** The failure path *)

Lemma stage_fails_throws env fetch rq :
  stage_fails env fetch rq -> exists e, POST_try env fetch rq = Throw e.
Proof.
  unfold POST_try.
  induction 1; cbn [await bind get];
    repeat match goal with
           | H : _ = _ |- _ => rewrite H; cbn [await bind negb]
           | |- context [text ?r] => destruct (text r); cbn [await bind]
           end; eauto.
Qed.

Lemma stage_fails_error_response env fetch rq :
  stage_fails env fetch rq -> POST env fetch rq = error_response.
Proof.
  intros H; apply stage_fails_throws in H as [e He].
  unfold POST; now rewrite He.
Qed.

End RouteFacts.

(* ===================================================================== *)
(** * Properties of the chat endpoint *)
(* ===================================================================== *)

Module RouteClaims.
Import JS Http Route Spec Samples RouteFacts.

(** Discharges [backend_answers] on a sample exchange. *)
Ltac answered :=
  unfold backend_answers, ask, respond;
  do 3 eexists; repeat split; reflexivity.

Lemma scores_missing_none (data : json) :
  scores_missing data -> backend_scores data = None.
Proof.
  unfold backend_scores.
  intros [H | [(e & He & Hl) | (e & l & He & Hl & Hs)]].
  - now rewrite H.
  - rewrite He. unfold fld in Hl. now rewrite Hl.
  - rewrite He. unfold fld in Hl, Hs. now rewrite Hl.
Qed.

(** Either a stage fails or the backend has answered and [transform]
    succeeds: [stage_fails] leaves no failure out. *)
Lemma stage_fails_or_succeeds env fetch rq :
  stage_fails env fetch rq \/
  exists data fields,
    backend_answers env fetch rq data /\ transform data = Ok fields.
Proof.
  destruct rq as [req|]; [|left; constructor].
  destruct (get req (js "question")) as [question|e] eqn:Hq.
  2:{ destruct req; try discriminate. left; constructor. }
  destruct (fetch (backend_request env question)) as [resp|] eqn:Hf.
  2:{ left; eapply fetch_throws; eauto. }
  destruct (ok resp) eqn:Hok.
  2:{ left; eapply backend_not_ok; eauto. }
  destruct (json_body resp) as [data|] eqn:Hj.
  2:{ left; eapply backend_body_not_json; eauto. }
  destruct (transform data) as [fields|e] eqn:Ht.
  - right; exists data, fields; split; [|assumption].
    exists req, question, resp; auto.
  - left; eapply transform_throws; eauto.
Qed.

(** C1, as amended.  When the backend's answer has a references array of
    strings and its evaluation scores are missing, the response carries a
    [scores] object holding the four fields [factual_accuracy],
    [relevance], [completeness] and [context_usage], each 0; it is the
    default block of the source, which has no [semantic_similarity]. *)
Theorem default_scores_when_missing env fetch rq data urls :
  backend_answers env fetch rq data ->
  string_references data urls ->
  scores_missing data ->
  fld (payload (POST env fetch rq)) "scores" = Some default_scores /\
  zero_scores four_score_fields (POST env fetch rq) /\
  fld default_scores "semantic_similarity" = None.
Proof.
  intros Hans Hrefs Hmiss.
  assert (Hsc : fld (payload (POST env fetch rq)) "scores" = Some default_scores).
  { rewrite (POST_answered Hans).
    unfold string_references, fld in Hrefs.
    destruct data as [| | | | |props]; try discriminate.
    cbn [opt_get] in Hrefs.
    rewrite (transform_object _ _ Hrefs).
    rewrite (scores_missing_none Hmiss).
    cbn [or_else truthy NextResponse_json payload].
    rewrite <- default_scores_written at 2.
    apply (success_payload_scores (assoc (js "answer") props)
             (map entry_of urls) default_scores). }
  split; [exact Hsc|]. split; [|reflexivity].
  exists default_scores; split; [exact Hsc|].
  repeat constructor.
Qed.

Lemma default_scores_when_missing_witness :
  scores_missing data_unevaluated /\
  zero_scores four_score_fields
    (POST None (respond data_unevaluated) (ask "What is your return policy?")).
Proof.
  split; [left; reflexivity|].
  apply (@default_scores_when_missing None (respond data_unevaluated)
           (ask "What is your return policy?") data_unevaluated [returns_url]).
  - answered.
  - reflexivity.
  - left; reflexivity.
Defined.

(** C1, as stated, fails: on an answer without [evaluation] the scores
    block of the response has no [semantic_similarity] field.  (And an
    answer that also lacks [references] gets the error payload, which has
    no scores block at all.) *)
Lemma semantic_similarity_not_defaulted :
  backend_answers None (respond data_unevaluated)
    (ask "What is your return policy?") data_unevaluated /\
  scores_missing data_unevaluated /\
  ~ zero_scores five_score_fields
      (POST None (respond data_unevaluated) (ask "What is your return policy?")) /\
  scores_missing data_bare /\
  fld (payload (POST None (respond data_bare) (ask "What is your return policy?")))
      "scores" = None.
Proof.
  split; [answered|]. split; [left; reflexivity|].
  split; [|split; [left; reflexivity | reflexivity]].
  intros (block & Hblock & Hall).
  vm_compute in Hblock. injection Hblock as <-.
  do 4 (apply Forall_inv_tail in Hall).
  apply Forall_inv in Hall.
  vm_compute in Hall. discriminate.
Qed.

Lemma error_response_error_only : error_only error_response.
Proof. split; reflexivity. Qed.

Lemma error_response_error_payload : error_payload error_response.
Proof.
  split; [eexists; reflexivity|].
  cbn [status error_response NextResponse_json]; lia.
Qed.

(** C2, as amended.  For a valid [{question: string}] body that the
    backend answers successfully, the endpoint returns status 200 and
    [{answer: string, references: [{page_url, page_title}...], scores}]:
    the references are objects and the scores sit in a top-level [scores]
    field.  When a stage fails it returns an error payload with a status
    outside 200..299. *)
Theorem chat_endpoint_shape env fetch rq :
  (forall data,
      valid_question_body rq ->
      backend_answers env fetch rq data ->
      successful_answer data ->
      status (POST env fetch rq) = 200%Z /\
      chat_shape (payload (POST env fetch rq))) /\
  (stage_fails env fetch rq -> error_payload (POST env fetch rq)).
Proof.
  split.
  - intros data _ Hans (a & urls & Ha & Hrefs).
    rewrite (POST_answered Hans).
    unfold string_references, fld in *.
    destruct data as [| | | | |props]; try discriminate.
    cbn [opt_get] in Ha, Hrefs.
    rewrite (transform_object _ _ Hrefs), Ha.
    destruct (or_else_default (backend_scores (JObj props)) default_scores)
      as (sc & -> & _).
    split; [reflexivity|].
    exists a, (map entry_of urls), (written sc); split.
    + rewrite <- (written_entries urls) at 2. reflexivity.
    + apply entry_is_reference_entry.
  - intros Hfail.
    rewrite (stage_fails_error_response Hfail).
    apply error_response_error_payload.
Qed.

Lemma chat_endpoint_shape_witness :
  chat_shape (payload (POST None (respond data_full) (ask "What is your return policy?"))) /\
  error_payload (POST None offline (ask "What is your return policy?")).
Proof.
  split.
  - apply (proj1 (chat_endpoint_shape None (respond data_full)
                    (ask "What is your return policy?")) data_full).
    + do 2 eexists; split; reflexivity.
    + answered.
    + exists (js "Returns accepted within 30 days."), [returns_url; faq_url].
      split; reflexivity.
  - apply (proj2 (chat_endpoint_shape None offline
                    (ask "What is your return policy?"))).
    eapply fetch_throws; reflexivity.
Defined.

(** C2, as stated, fails: the response to a complete answer has no
    [evaluation] field (and its references are not bare URLs). *)
Lemma boundary_shape_not_produced :
  valid_question_body (ask "What is your return policy?") /\
  backend_answers None (respond data_full)
    (ask "What is your return policy?") data_full /\
  successful_answer data_full /\
  ~ boundary_shape
      (payload (POST None (respond data_full) (ask "What is your return policy?"))).
Proof.
  split; [do 2 eexists; split; reflexivity|].
  split; [answered|].
  split; [exists (js "Returns accepted within 30 days."), [returns_url; faq_url];
          split; reflexivity|].
  intros (_ & _ & ev & sc & Hev & _).
  vm_compute in Hev. discriminate.
Qed.

(** C3, as amended.  When a stage fails (the request body is not valid
    JSON or is [null], the call to the backend throws, the backend
    returns a status that is not ok, its body is not JSON, or the
    transformation throws), the endpoint returns exactly
    [{error: 'Failed to process request'}] with status 500: an error
    indicator and a status outside 200..299, with no [answer], no
    [references] and no [scores] field. *)
Theorem failure_is_error_only env fetch rq :
  stage_fails env fetch rq ->
  error_only (POST env fetch rq) /\
  fld (payload (POST env fetch rq)) "answer" = None /\
  fld (payload (POST env fetch rq)) "references" = None /\
  fld (payload (POST env fetch rq)) "scores" = None /\
  error_payload (POST env fetch rq).
Proof.
  intros Hfail.
  rewrite (stage_fails_error_response Hfail).
  split; [apply error_response_error_only|].
  repeat split; try reflexivity;
    apply error_response_error_payload.
Qed.

Lemma failure_is_error_only_witness :
  error_only (POST None refuse (ask "What is your return policy?")).
Proof.
  apply (@failure_is_error_only None refuse (ask "What is your return policy?")).
  eapply backend_not_ok; reflexivity.
Defined.

(** C3, as stated, fails: when the backend cannot be reached the payload
    holds the error indicator alone, so it carries no message besides it
    and no (empty) [references]. *)
Lemma failure_carries_no_apology :
  stage_fails None offline (ask "What is your return policy?") /\
  ~ (exists k msg, k <> "error"%string /\
       fld (payload (POST None offline (ask "What is your return policy?"))) k
       = Some (JStr msg)) /\
  ~ apology_payload (POST None offline (ask "What is your return policy?")).
Proof.
  split; [eapply fetch_throws; reflexivity|].
  split.
  - intros (k & msg & Hk & Hfld).
    change (POST None offline (ask "What is your return policy?"))
      with error_response in Hfld.
    unfold fld in Hfld; cbn [payload error_response NextResponse_json
                             object_literal opt_get assoc written map fst snd]
                          in Hfld.
    destruct (str_eqb (js k) (js "error")) eqn:Heq; [|discriminate].
    apply str_eqb_eq, js_injective in Heq. contradiction.
  - intros (_ & Hrefs & _).
    vm_compute in Hrefs. discriminate.
Qed.

(** C4.  Every [page_url] the endpoint returns is one of the references
    of the backend's answer. *)
Theorem references_drawn_from_backend env fetch rq data u :
  backend_answers env fetch rq data ->
  In u (page_urls (references_of (payload (POST env fetch rq)))) ->
  In u (references_of data).
Proof.
  intros Hans.
  destruct (POST_answered_cases Hans)
    as [(props & urls & sc & -> & Hrefs & _ & ->) | (_ & ->)].
  - cbn [payload]. rewrite success_payload_references, page_urls_entries.
    unfold references_of, fld; cbn [opt_get]. now rewrite Hrefs.
  - intros [].
Qed.

Lemma references_drawn_from_backend_witness :
  In (JStr returns_url)
     (page_urls (references_of
        (payload (POST None (respond data_full) (ask "What is your return policy?"))))) /\
  In (JStr returns_url) (references_of data_full).
Proof.
  assert (H : In (JStr returns_url)
     (page_urls (references_of
        (payload (POST None (respond data_full) (ask "What is your return policy?")))))).
  { left; reflexivity. }
  split; [exact H|].
  apply (@references_drawn_from_backend None (respond data_full)
           (ask "What is your return policy?") data_full (JStr returns_url)).
  - answered.
  - exact H.
Defined.






(** C6, as amended.  The endpoint removes no duplicates: on success the
    list it delivers has one entry per reference of the backend's answer,
    in the same order.  So the delivered URLs are distinct whenever the
    backend's are. *)
Theorem references_kept_in_order env fetch rq data :
  backend_answers env fetch rq data ->
  (status (POST env fetch rq) = 200%Z ->
   List.length (references_of (payload (POST env fetch rq)))
   = List.length (references_of data) /\
   page_urls (references_of (payload (POST env fetch rq))) = references_of data) /\
  (NoDup (references_of data) ->
   NoDup (page_urls (references_of (payload (POST env fetch rq))))).
Proof.
  intros Hans.
  destruct (POST_answered_cases Hans)
    as [(props & urls & sc & -> & Hrefs & _ & ->) | (_ & ->)].
  - assert (Hdata : references_of (JObj props) = map JStr urls).
    { unfold references_of, fld; cbn [opt_get]. now rewrite Hrefs. }
    cbn [payload]. rewrite success_payload_references, page_urls_entries, Hdata.
    repeat split; auto.
    now rewrite !length_map.
  - split; [discriminate | intros _; constructor].
Qed.

Lemma references_kept_in_order_witness :
  page_urls (references_of
     (payload (POST None (respond data_repeated) (ask "What is your return policy?"))))
  = [JStr returns_url; JStr faq_url; JStr returns_url].
Proof.
  apply (proj1 (@references_kept_in_order None (respond data_repeated)
                  (ask "What is your return policy?") data_repeated
                  ltac:(answered))).
  reflexivity.
Defined.

(** C6, as stated, fails: a URL the backend lists twice is delivered
    twice. *)
Lemma duplicates_not_removed :
  backend_answers None (respond data_repeated)
    (ask "What is your return policy?") data_repeated /\
  ~ NoDup (page_urls (references_of
      (payload (POST None (respond data_repeated) (ask "What is your return policy?"))))).
Proof.
  split; [answered|].
  intros Hnd.
  apply NoDup_cons_iff in Hnd as [Hnotin _].
  apply Hnotin. right; left; reflexivity.
Qed.



End RouteClaims.

(* ===================================================================== *)
(** * Facts about the chat page *)
(* ===================================================================== *)

Module ChatFacts.
Import JS Http ChatPage Spec.

(** ** [trim] *)

Lemma trimStart_nil_iff (s : jsstring) : trimStart s = [] <-> blank s.
Proof.
  unfold blank; induction s as [|c s IH]; simpl.
  - split; auto.
  - destruct (is_whitespace c) eqn:Hc.
    + rewrite IH; split; [now constructor | now inversion 1].
    + split; [discriminate|].
      inversion 1; congruence.
Qed.

Lemma trimStart_head (s r : jsstring) (c : jschar) :
  trimStart s = c :: r -> is_whitespace c = false.
Proof.
  induction s as [|x s IH]; simpl; [discriminate|].
  destruct (is_whitespace x) eqn:Hx; [assumption|].
  now intros [= <- _].
Qed.

Lemma blank_rev (s : jsstring) : blank (rev s) <-> blank s.
Proof.
  unfold blank; split; intros H.
  - rewrite <- (rev_involutive s); now apply Forall_rev.
  - now apply Forall_rev.
Qed.

Lemma rev_nil_iff {A} (l : list A) : rev l = [] <-> l = [].
Proof.
  split; [|now intros ->].
  intros H; rewrite <- (rev_involutive l), H; reflexivity.
Qed.

(** [trim] leaves nothing exactly of the blank strings. *)
Lemma trim_nil_iff (s : jsstring) : trim s = [] <-> blank s.
Proof.
  unfold trim, trimEnd.
  etransitivity; [apply rev_nil_iff|].
  etransitivity; [apply trimStart_nil_iff|].
  etransitivity; [apply blank_rev|].
  split.
  - intros Hblank.
    destruct (trimStart s) as [|c r] eqn:Hs; [now apply trimStart_nil_iff|].
    apply trimStart_head in Hs.
    apply Forall_inv in Hblank; congruence.
  - intros Hblank. apply trimStart_nil_iff in Hblank. rewrite Hblank; constructor.
Qed.

(** ** Comparisons *)

Lemma Qlt_bool_iff (a b : Q) : Qlt_bool a b = true <-> (a < b)%Q.
Proof.
  unfold Qlt_bool. rewrite negb_true_iff, <- not_true_iff_false, Qle_bool_iff.
  split; [apply Qnot_le_lt | apply Qlt_not_le].
Qed.

Lemma gt_above (b : Q) (s : number) : gt s (Fin b) = true <-> above b s.
Proof.
  destruct s; simpl; try (split; [discriminate | contradiction]).
  - apply Qlt_bool_iff.
  - tauto.
Qed.

Lemma lt_below (b : Q) (s : number) : lt s (Fin b) = true <-> below b s.
Proof.
  destruct s; simpl; try (split; [discriminate | contradiction]).
  - apply Qlt_bool_iff.
  - tauto.
Qed.

Lemma colors_distinct : green <> red /\ green <> yellow /\ red <> yellow.
Proof. repeat split; intros H; vm_compute in H; discriminate. Qed.

Lemma below_not_above (s : number) : below 5 s -> ~ above 8 s.
Proof.
  destruct s; simpl; try tauto.
  intros H5 H8.
  assert (H : (8 < 5)%Q) by (eapply Qlt_trans; eassumption).
  unfold Qlt in H; simpl in H; lia.
Qed.

End ChatFacts.

(* ===================================================================== *)
(** * Properties of the chat page *)
(* ===================================================================== *)

Module ChatClaims.
Import JS Http ChatPage Spec Samples ChatFacts.

Section Page.

Variable toLowerCase : jsstring -> jsstring.
Variable template_toString : value -> Result jsstring.
Variable toNumber : json -> number.

(** A failed call makes the [try] block throw before any state update. *)
Lemma reply_fails fetch q now :
  api_call_fails fetch q ->
  exists e, reply toLowerCase template_toString fetch q now = Throw e.
Proof.
  unfold reply.
  intros [Hnone | (res & Hres & Hok)].
  - rewrite Hnone; cbn [await bind]; eauto.
  - rewrite Hres; cbn [await bind]. rewrite Hok; cbn [negb]; eauto.
Qed.

(** C7.  When the question is submitted (it is not blank) and the call of
    the chat API fails, the page appends, after the user's message, an
    agent message whose text is the fixed apology and which has neither a
    [references] nor a [scores] field; neither the evaluation-scores block
    nor the references block is rendered for it. *)
Theorem failed_call_appends_apology fetch now_submit now_reply st :
  ~ blank (question st) ->
  api_call_fails fetch (question st) ->
  exists m,
    messages (fst (handleSubmit toLowerCase template_toString fetch
                     now_submit now_reply st))
    = messages st
      ++ [{| id := int_toString now_submit; type := user; text := question st;
             references := Absent; scores := Absent |}; m] /\
    type m = agent /\
    text m = apology /\
    references m = Absent /\
    scores m = Absent /\
    renders_scores m = false /\
    renders_references toNumber m = false.
Proof.
  intros Hsubmitted Hfails.
  unfold handleSubmit.
  destruct (trim (question st)) as [|c r] eqn:Htrim.
  { exfalso; apply Hsubmitted; now apply trim_nil_iff. }
  cbn [truthy negb].
  destruct (reply_fails now_reply Hfails) as [e ->].
  cbn [try_catch fst].
  exists {| id := int_toString (now_reply + 1); type := agent; text := apology;
            references := Absent; scores := Absent |}.
  split; [|repeat split].
  cbn [on_error setMessages setLoading setQuestion messages].
  rewrite <- app_assoc; reflexivity.
Qed.

(** C9.  Submitting a question that is empty or only white space does
    nothing: no request is sent and the state, the message list with it,
    is unchanged. *)
Theorem blank_submit_is_noop fetch now_submit now_reply st :
  blank (question st) ->
  snd (handleSubmit toLowerCase template_toString fetch now_submit now_reply st)
  = [] /\
  messages (fst (handleSubmit toLowerCase template_toString fetch
                   now_submit now_reply st))
  = messages st /\
  fst (handleSubmit toLowerCase template_toString fetch now_submit now_reply st)
  = st.
Proof.
  intros Hblank.
  unfold handleSubmit.
  apply trim_nil_iff in Hblank; rewrite Hblank.
  cbn [truthy negb fst snd]; auto.
Qed.

End Page.

Lemma failed_call_appends_apology_witness :
  exists m,
    messages (fst (handleSubmit lower_ascii show_string offline
                     1700000000000 1700000000250
                     (typed "What is your return policy?")))
    = [{| id := js "1700000000000"; type := user;
          text := js "What is your return policy?";
          references := Absent; scores := Absent |}; m] /\
    text m = apology /\
    renders_scores m = false /\
    renders_references number_of m = false.
Proof.
  destruct (@failed_call_appends_apology lower_ascii show_string number_of
              offline 1700000000000 1700000000250
              (typed "What is your return policy?"))
    as (m & Hmsgs & _ & Htext & _ & _ & Hsc & Hrefs).
  - intros Hblank. apply Forall_inv in Hblank. discriminate.
  - left; reflexivity.
  - exists m; repeat split; assumption.
Defined.

Lemma blank_submit_is_noop_witness :
  blank (js "   ") /\
  handleSubmit lower_ascii show_string (respond data_full)
    1700000000000 1700000000250 (typed "   ")
  = (typed "   ", []).
Proof.
  assert (Hblank : blank (question (typed "   "))) by (repeat constructor).
  split; [exact Hblank|].
  destruct (@blank_submit_is_noop lower_ascii show_string (respond data_full)
              1700000000000 1700000000250 (typed "   ") Hblank)
    as (Hsent & _ & Hstate).
  apply injective_projections; assumption.
Defined.

(** C10.  The colour of a score is green exactly when the score is above
    8, red exactly when it is below 5, and yellow otherwise; 5 and 8 are
    both yellow. *)
Theorem confidence_color_classes (score : number) :
  (getConfidenceColor score = green <-> above 8 score) /\
  (getConfidenceColor score = red <-> below 5 score) /\
  (getConfidenceColor score = yellow <-> ~ above 8 score /\ ~ below 5 score) /\
  getConfidenceColor (Fin 5) = yellow /\
  getConfidenceColor (Fin 8) = yellow.
Proof.
  destruct colors_distinct as (Hgr & Hgy & Hry).
  pose proof (gt_above 8 score) as Habove.
  pose proof (lt_below 5 score) as Hbelow.
  pose proof (@below_not_above score) as Hexcl.
  unfold getConfidenceColor.
  destruct (gt score (Fin 8)) eqn:Hgt; [|destruct (lt score (Fin 5)) eqn:Hlt].
  - assert (above 8 score) by now apply Habove.
    repeat split; auto; try tauto; try congruence.
  - assert (below 5 score) by now apply Hbelow.
    assert (~ above 8 score) by (rewrite <- Habove; congruence).
    repeat split; auto; try tauto; try congruence.
  - assert (~ above 8 score) by (rewrite <- Habove; congruence).
    assert (~ below 5 score) by (rewrite <- Hbelow; congruence).
    repeat split; auto; try tauto; try congruence.
Qed.

Lemma confidence_color_classes_witness :
  getConfidenceColor (Fin 9) = green /\
  getConfidenceColor (Fin (9 # 2)) = red /\
  getConfidenceColor NaN = yellow.
Proof.
  split; [|split].
  - apply (proj1 (confidence_color_classes (Fin 9))).
    unfold above, Qlt; simpl; lia.
  - apply (proj1 (proj2 (confidence_color_classes (Fin (9 # 2))))).
    unfold below, Qlt; simpl; lia.
  - apply (proj1 (proj2 (proj2 (confidence_color_classes NaN)))).
    split; intros [].
Defined.

End ChatClaims.

(* ===================================================================== *)
(** * More about the chat endpoint *)
(* ===================================================================== *)

Module RouteExtras.
Import JS Http Route Spec Samples RouteFacts.

Ltac answered :=
  unfold backend_answers, ask, respond;
  do 3 eexists; repeat split; reflexivity.

(** ** Helpers *)

Lemma success_payload_answer a entries sc :
  fld (success_payload a entries sc) "answer" = option_map written a.
Proof. destruct a; reflexivity. Qed.

Lemma status_error_response : status error_response = 500%Z.
Proof. reflexivity. Qed.

(** With an answer from the backend, the endpoint succeeds exactly when
    [references] is an array of strings. *)
Lemma answered_success_iff env fetch rq data :
  backend_answers env fetch rq data ->
  (status (POST env fetch rq) = 200%Z <-> exists urls, string_references data urls) /\
  (POST env fetch rq = error_response \/ status (POST env fetch rq) = 200%Z).
Proof.
  intros Hans.
  destruct (POST_answered_cases Hans)
    as [(props & urls & sc & -> & Hrefs & _ & ->) | ((e & He) & Herr)].
  - split; [|right; reflexivity].
    split; [intros _; now exists urls | reflexivity].
  - rewrite Herr. split; [|now left].
    split; [discriminate|].
    intros (urls & Hrefs). exfalso.
    unfold string_references, fld in Hrefs.
    destruct data as [| | | | |props]; try discriminate.
    cbn [opt_get] in Hrefs.
    rewrite (transform_object _ _ Hrefs) in He. discriminate.
Qed.

Lemma stage_fails_not_200 env fetch rq :
  stage_fails env fetch rq -> status (POST env fetch rq) <> 200%Z.
Proof.
  intros H. rewrite (stage_fails_error_response H). discriminate.
Qed.

Lemma stage_fails_or_200 env fetch rq :
  stage_fails env fetch rq \/ status (POST env fetch rq) = 200%Z.
Proof.
  destruct (RouteClaims.stage_fails_or_succeeds env fetch rq)
    as [Hfail | (data & fields & Hans & Ht)]; [now left | right].
  rewrite (POST_answered Hans), Ht. reflexivity.
Qed.

(** X1.  On success the endpoint forwards the backend's [answer] as
    [JSON.stringify] writes it: the same value, except that a number in it
    that is not finite is written as [null].  A string answer arrives
    unchanged; when the backend sent no [answer], the response has no
    [answer] field either. *)
Theorem answer_forwarded env fetch rq data :
  backend_answers env fetch rq data ->
  status (POST env fetch rq) = 200%Z ->
  fld (payload (POST env fetch rq)) "answer"
  = option_map written (fld data "answer") /\
  (forall s, fld data "answer" = Some (JStr s) ->
             fld (payload (POST env fetch rq)) "answer" = Some (JStr s)) /\
  (fld data "answer" = None -> fld (payload (POST env fetch rq)) "answer" = None).
Proof.
  intros Hans.
  destruct (POST_answered_cases Hans)
    as [(props & urls & sc & -> & _ & _ & ->) | (_ & ->)]; [|discriminate].
  intros _. cbn [payload]. rewrite success_payload_answer.
  split; [reflexivity|].
  split; [intros s Hs | intros Hnone];
    unfold fld in *; cbn [opt_get] in *.
  - now rewrite Hs.
  - now rewrite Hnone.
Qed.

Lemma answer_forwarded_witness :
  fld (payload (POST None (respond data_full) (ask "What is your return policy?")))
      "answer"
  = Some (JStr (js "Returns accepted within 30 days.")).
Proof.
  apply (proj1 (proj2 (@answer_forwarded None (respond data_full)
           (ask "What is your return policy?") data_full
           ltac:(answered) eq_refl))).
  reflexivity.
Defined.

(** X2.  The endpoint answers with status 200 or 500 and nothing else:
    500, with the fixed error payload, exactly when a stage fails, and 200
    exactly when none does. *)
Theorem status_200_or_500 env fetch rq :
  (stage_fails env fetch rq <-> POST env fetch rq = error_response) /\
  (~ stage_fails env fetch rq <-> status (POST env fetch rq) = 200%Z) /\
  (status (POST env fetch rq) = 200%Z \/ status (POST env fetch rq) = 500%Z).
Proof.
  destruct (stage_fails_or_200 env fetch rq) as [Hfail | H200].
  - pose proof (stage_fails_error_response Hfail) as Herr.
    repeat split; auto.
    + intros Hn; contradiction.
    + intros H200; rewrite Herr in H200; discriminate.
    + right; now rewrite Herr.
  - assert (Hno : ~ stage_fails env fetch rq).
    { intros Hfail; now apply (stage_fails_not_200 Hfail). }
    repeat split; auto.
    + intros Hfail; contradiction.
    + intros Herr; rewrite Herr in H200; discriminate.
Qed.

Lemma status_200_or_500_witness :
  status (POST None refuse (ask "What is your return policy?")) <> 200%Z /\
  status (POST None (respond data_bare) (ask "What is your return policy?")) <> 200%Z /\
  ~ stage_fails None (respond data_full) (ask "What is your return policy?").
Proof.
  split; [|split].
  - intros H200.
    apply (proj2 (proj1 (proj2 (status_200_or_500 None refuse
                    (ask "What is your return policy?")))) H200).
    eapply backend_not_ok; reflexivity.
  - intros H200.
    apply (proj2 (proj1 (proj2 (status_200_or_500 None (respond data_bare)
                    (ask "What is your return policy?")))) H200).
    eapply transform_throws; reflexivity.
  - apply (proj2 (proj1 (proj2 (status_200_or_500 None (respond data_full)
                    (ask "What is your return policy?"))))).
    reflexivity.
Defined.

(** X3.  Once the backend has answered with a JSON body, the endpoint
    succeeds exactly when [references] is an array of strings: nothing
    else in the body is checked (the answer may be missing, the
    evaluation may be anything). *)
Theorem success_iff_string_references env fetch rq data :
  backend_answers env fetch rq data ->
  (status (POST env fetch rq) = 200%Z <-> exists urls, string_references data urls).
Proof.
  intros Hans. apply (answered_success_iff Hans).
Qed.

Lemma success_iff_string_references_witness :
  status (POST None (respond (JObj [(js "references", JArr [])]))
            (ask "What is your return policy?")) = 200%Z.
Proof.
  apply (proj2 (@success_iff_string_references None
                  (respond (JObj [(js "references", JArr [])]))
                  (ask "What is your return policy?")
                  (JObj [(js "references", JArr [])]) ltac:(answered))).
  exists []; reflexivity.
Defined.

(** X4.  One reference that is not a string (a [null], a number, a nested
    object) makes the whole request fail with the error payload: no partial
    list of references is ever returned. *)
Theorem one_bad_reference_fails_all env fetch rq data l x :
  backend_answers env fetch rq data ->
  fld data "references" = Some (JArr l) ->
  In x l ->
  (forall s, x <> JStr s) ->
  POST env fetch rq = error_response.
Proof.
  intros Hans Hrefs Hin Hbad.
  destruct (answered_success_iff Hans) as [Hiff [Herr | H200]]; [exact Herr|].
  exfalso.
  apply Hiff in H200 as (urls & Hurls).
  unfold string_references in Hurls.
  rewrite Hrefs in Hurls. injection Hurls as ->.
  apply in_map_iff in Hin as (s & <- & _).
  now apply (Hbad s).
Qed.

Lemma one_bad_reference_fails_all_witness :
  POST None
    (respond (JObj [(js "answer", JStr (js "hello"));
                    (js "references", JArr [JStr returns_url; JNull])]))
    (ask "What is your return policy?")
  = error_response.
Proof.
  apply (@one_bad_reference_fails_all None _ (ask "What is your return policy?")
           (JObj [(js "answer", JStr (js "hello"));
                  (js "references", JArr [JStr returns_url; JNull])])
           [JStr returns_url; JNull] JNull).
  - answered.
  - reflexivity.
  - right; left; reflexivity.
  - intros s; discriminate.
Defined.

Lemma split_pieces_without_sep (sep : jschar) (s : jsstring) :
  Forall (fun piece => ~ In sep piece) (split sep s).
Proof.
  induction s as [|c rest IH]; simpl.
  - constructor; [intros [] | constructor].
  - destruct (N.eqb_spec c sep) as [->|Hne].
    + constructor; [intros [] | assumption].
    + destruct (split sep rest) as [|piece pieces].
      * constructor; [|constructor].
        intros [Heq | []]; congruence.
      * inversion IH as [|? ? Hpiece Hpieces]; subst.
        constructor; [|assumption].
        intros [Heq | Hin]; [congruence | contradiction].
Qed.

Lemma pop_In {A} (l : list A) (x : A) : pop l = Some x -> In x l.
Proof.
  induction l as [|y l IH]; [discriminate|].
  destruct l as [|z l].
  - intros [= ->]; now left.
  - intros H; right; now apply IH.
Qed.

(** The last piece is a suffix; it is the whole string when it is the
    only piece. *)
Lemma pop_split_suffix_strong (sep : jschar) (s t : jsstring) :
  pop (split sep s) = Some t ->
  exists p, s = p ++ t /\ (List.length (split sep s) = 1%nat -> p = []).
Proof.
  revert t; induction s as [|c rest IH]; intros t.
  - intros [= <-]; now exists [].
  - simpl split. destruct (N.eqb c sep).
    + rewrite pop_skip by apply split_nonempty.
      intros H; destruct (IH _ H) as (p & -> & _).
      exists (c :: p); split; [reflexivity|].
      pose proof (split_nonempty sep (p ++ t)) as Hne.
      destruct (split sep (p ++ t)); [congruence | discriminate].
    + destruct (split sep rest) as [|piece pieces] eqn:Hsplit.
      * exfalso; exact (split_nonempty _ _ Hsplit).
      * destruct pieces as [|piece' pieces].
        -- intros [= <-].
           destruct (IH piece eq_refl) as (p & Hp & Hone).
           rewrite (Hone eq_refl) in Hp. subst rest.
           now exists [].
        -- intros H.
           destruct (IH t H) as (p & -> & _).
           exists (c :: p); split; [reflexivity | discriminate].
Qed.

Lemma pop_split_suffix (sep : jschar) (s t : jsstring) :
  pop (split sep s) = Some t -> exists p, s = p ++ t.
Proof.
  intros H; destruct (pop_split_suffix_strong _ _ H) as (p & Hp & _); eauto.
Qed.

(** X5.  The title of a reference is always a suffix of its URL; it is
    empty only for the empty URL; and it contains no ['/'] unless it is
    the whole URL. *)
Theorem page_title_is_suffix (s title : jsstring) :
  reference_entry (JStr s)
  = Ok (JObj [(js "page_url", JStr s); (js "page_title", JStr title)]) ->
  (exists p, s = p ++ title) /\
  (s <> [] -> title <> []) /\
  (title = s \/ ~ In slash title).
Proof.
  rewrite reference_entry_string. unfold entry_of.
  intros [= <-]. unfold title_of.
  destruct (pop (split slash s)) as [[|c t]|] eqn:Hpop.
  - split; [now exists []|]. split; auto.
  - split; [now apply (pop_split_suffix slash)|].
    split; [discriminate|]. right.
    apply pop_In in Hpop.
    pose proof (split_pieces_without_sep slash s) as Hall.
    rewrite Forall_forall in Hall. now apply Hall.
  - split; [now exists []|]. split; auto.
Qed.

Lemma page_title_is_suffix_witness :
  exists p, returns_url = p ++ js "returns".
Proof.
  apply (@page_title_is_suffix returns_url (js "returns")).
  reflexivity.
Defined.

(** X6.  The endpoint's response depends on the network only through the
    answer to POST requests to [API_URL/generate]: two networks that
    agree on those give the same response to every request. *)
Theorem only_generate_is_called env (fetch1 fetch2 : Fetch) rq :
  (forall req,
      url req = API_URL env ++ js "/generate" ->
      method req = js "POST" ->
      fetch1 req = fetch2 req) ->
  POST env fetch1 rq = POST env fetch2 rq.
Proof.
  intros Hagree.
  unfold POST, POST_try.
  destruct rq as [req|]; [|reflexivity].
  cbn [await bind].
  destruct (get req (js "question")) as [question|e]; [|reflexivity].
  cbn [bind].
  now rewrite (Hagree (backend_request env question) eq_refl eq_refl).
Qed.

Lemma only_generate_is_called_witness :
  POST None
    (fun req => if str_eqb (url req) (js "http://localhost:8000/generate")
                then respond data_full req else None)
    (ask "What is your return policy?")
  = POST None (respond data_full) (ask "What is your return policy?").
Proof.
  apply only_generate_is_called.
  intros req Hurl _. rewrite Hurl. reflexivity.
Defined.

End RouteExtras.

(* ===================================================================== *)
(** * More about the chat page *)
(* ===================================================================== *)

Module ChatExtras.
Import JS Http ChatPage ChatView Spec Samples RouteFacts ChatFacts.

(** ** Helpers *)

Lemma str_eqb_refl (a : jsstring) : str_eqb a a = true.
Proof. now apply str_eqb_eq. Qed.

Lemma str_eqb_neq (a b : jsstring) : a <> b -> str_eqb a b = false.
Proof.
  intros Hne. destruct (str_eqb a b) eqn:Heq; [|reflexivity].
  apply str_eqb_eq in Heq. contradiction.
Qed.

Lemma get_not_null (data : json) (k : jsstring) :
  data <> JNull -> get data k = Ok (opt_get (Some data) k).
Proof. destruct data; intros H; try reflexivity; congruence. Qed.

Lemma json_dec_null (data : json) : data = JNull \/ data <> JNull.
Proof. destruct data; (now left) || (right; discriminate). Qed.

Lemma lookup_assoc_set_same (id : jsstring) (b : bool) m :
  lookup id (assoc_set id b m) = Some b.
Proof.
  induction m as [|[k v] m IH]; simpl.
  - now rewrite str_eqb_refl.
  - destruct (str_eqb id k) eqn:Hk; simpl; rewrite Hk; auto.
Qed.

Lemma lookup_assoc_set_other (id id' : jsstring) (b : bool) m :
  id' <> id -> lookup id' (assoc_set id b m) = lookup id' m.
Proof.
  intros Hne.
  induction m as [|[k v] m IH]; simpl.
  - now rewrite (str_eqb_neq Hne).
  - destruct (str_eqb id k) eqn:Hk; simpl.
    + apply str_eqb_eq in Hk; subst k. now rewrite (str_eqb_neq Hne).
    + now rewrite IH.
Qed.

Lemma to_int_printable (z : Z) :
  Z.to_int z <> Decimal.Pos Decimal.Nil /\ Z.to_int z <> Decimal.Neg Decimal.Nil.
Proof.
  destruct z; simpl; split; try discriminate; intros [= H];
    now apply (Unsigned.to_uint_nonnil p).
Qed.

(** Different integers print differently. *)
Lemma int_toString_inj (a b : Z) : int_toString a = int_toString b -> a = b.
Proof.
  unfold int_toString. intros H. apply js_injective in H.
  apply (f_equal NilZero.int_of_string) in H.
  destruct (to_int_printable a), (to_int_printable b).
  rewrite !NilZero.isi in H by assumption.
  injection H as H. now apply DecimalZ.to_int_inj.
Qed.

Section Page.

Variable toLowerCase : jsstring -> jsstring.
Variable template_toString : value -> Result jsstring.
Variable toNumber : json -> number.

(** The state after a submit of a question that is not blank. *)
Lemma submit_not_blank fetch now_submit now_reply st :
  ~ blank (question st) ->
  handleSubmit toLowerCase template_toString fetch now_submit now_reply st
  = (setLoading false
       (try_catch (reply toLowerCase template_toString fetch (question st) now_reply)
          (fun _ => on_error now_reply)
          (setLoading true
             (setQuestion []
                (setMessages (fun prev => prev ++ [user_message now_submit (question st)])
                   st)))),
     [chat_request (question st)]).
Proof.
  intros Hsubmitted. unfold handleSubmit.
  destruct (trim (question st)) as [|c r] eqn:Htrim; [|reflexivity].
  exfalso; apply Hsubmitted; now apply trim_nil_iff.
Qed.

(** The [try] block either throws or ends with the two updates for the
    reply to some parsed body whose answer could be converted. *)
Lemma reply_cases fetch q now :
  (exists e, reply toLowerCase template_toString fetch q now = Throw e) \/
  (exists res data answer_text,
      fetch (chat_request q) = Some res /\ ok res = true /\
      json_body res = Some data /\ data <> JNull /\
      template_toString (opt_get (Some data) (js "answer")) = Ok answer_text /\
      reply toLowerCase template_toString fetch q now
      = Ok (fun st =>
              setShowReferences (assoc_set (int_toString (now + 1)) false)
                (setMessages
                   (fun prev => prev ++ [agent_message toLowerCase answer_text
                                           now q data]) st))).
Proof.
  unfold reply.
  destruct (fetch (chat_request q)) as [res|] eqn:Hres; cbn [await bind];
    [|left; eauto].
  destruct (ok res) eqn:Hok; cbn [negb]; [|left; eauto].
  destruct (json_body res) as [data|] eqn:Hdata; cbn [await bind];
    [|left; eauto].
  destruct (json_dec_null data) as [-> | Hnn]; [left; cbn [get bind]; eauto|].
  rewrite !(get_not_null _ Hnn); cbn [bind].
  destruct (template_toString (opt_get (Some data) (js "answer")))
    as [answer_text|e] eqn:Htext; cbn [bind]; [|left; eauto].
  right. exists res, data, answer_text. repeat split; auto.
Qed.

(** The [try] block on a readable body, by the conversion of its answer. *)
Lemma reply_readable fetch q now res data :
  fetch (chat_request q) = Some res ->
  ok res = true ->
  json_body res = Some data ->
  data <> JNull ->
  reply toLowerCase template_toString fetch q now
  = bind (template_toString (opt_get (Some data) (js "answer")))
      (fun answer_text =>
         Ok (fun st =>
               setShowReferences (assoc_set (int_toString (now + 1)) false)
                 (setMessages
                    (fun prev => prev ++ [agent_message toLowerCase answer_text
                                            now q data]) st))).
Proof.
  intros Hres Hok Hdata Hnn. unfold reply.
  rewrite Hres; cbn [await bind]. rewrite Hok, Hdata; cbn [negb await bind].
  rewrite !(get_not_null _ Hnn); cbn [bind].
  destruct (template_toString (opt_get (Some data) (js "answer"))); reflexivity.
Qed.

(** The state after a submit that got a readable reply. *)
Lemma submit_ok_state fetch now_submit now_reply st res data answer_text :
  ~ blank (question st) ->
  fetch (chat_request (question st)) = Some res ->
  ok res = true ->
  json_body res = Some data ->
  data <> JNull ->
  template_toString (opt_get (Some data) (js "answer")) = Ok answer_text ->
  fst (handleSubmit toLowerCase template_toString fetch now_submit now_reply st)
  = {| question := [];
       loading := false;
       messages := messages st
                   ++ [user_message now_submit (question st);
                       agent_message toLowerCase answer_text now_reply
                         (question st) data];
       showReferences := assoc_set (int_toString (now_reply + 1)) false
                           (showReferences st) |}.
Proof.
  intros Hsubmitted Hres Hok Hdata Hnn Htext.
  rewrite (submit_not_blank fetch now_submit now_reply st Hsubmitted).
  rewrite (reply_readable fetch (question st) now_reply Hres Hok Hdata Hnn), Htext.
  cbn [bind try_catch fst].
  unfold setLoading, setQuestion, setMessages, setShowReferences;
    cbn [question loading messages showReferences].
  now rewrite <- app_assoc.
Qed.

(** The state after a submit whose [try] block threw. *)
Lemma submit_failed_state fetch now_submit now_reply st :
  ~ blank (question st) ->
  (exists e, reply toLowerCase template_toString fetch (question st) now_reply
             = Throw e) ->
  fst (handleSubmit toLowerCase template_toString fetch now_submit now_reply st)
  = {| question := [];
       loading := false;
       messages := messages st
                   ++ [user_message now_submit (question st);
                       apology_message now_reply];
       showReferences := showReferences st |}.
Proof.
  intros Hsubmitted [e He].
  rewrite (submit_not_blank fetch now_submit now_reply st Hsubmitted), He.
  cbn [try_catch fst].
  unfold on_error, setLoading, setQuestion, setMessages;
    cbn [question loading messages showReferences].
  now rewrite <- app_assoc.
Qed.

(** A submit looks at the network only at its own request. *)
Lemma submit_depends_on_chat_request (fetch1 fetch2 : Fetch)
    now_submit now_reply st :
  fetch1 (chat_request (question st)) = fetch2 (chat_request (question st)) ->
  handleSubmit toLowerCase template_toString fetch1 now_submit now_reply st
  = handleSubmit toLowerCase template_toString fetch2 now_submit now_reply st.
Proof.
  intros Hagree. unfold handleSubmit, reply. now rewrite Hagree.
Qed.

(** X8.  When the chat API answers with an ok status and a JSON body
    other than [null], the outcome turns on the conversion of the body's
    [answer] to text.  When it succeeds, a submit appends the user's
    message and then the agent's reply built from the body (the topic, the
    fixed lead-in and the converted answer as text; the body's [references]
    and [scores] as they are), clears the input, sets [loading] back to
    false and records the references of the new message as hidden.  When
    it throws, the apology is appended instead and the record of shown
    references is left alone. *)
Theorem successful_submit fetch now_submit now_reply st res data :
  ~ blank (question st) ->
  fetch (chat_request (question st)) = Some res ->
  ok res = true ->
  json_body res = Some data ->
  data <> JNull ->
  (forall answer_text,
      template_toString (fld data "answer") = Ok answer_text ->
      fst (handleSubmit toLowerCase template_toString fetch now_submit now_reply st)
      = {| question := [];
           loading := false;
           messages := messages st
                       ++ [user_message now_submit (question st);
                           agent_message toLowerCase answer_text now_reply
                             (question st) data];
           showReferences := assoc_set (int_toString (now_reply + 1)) false
                               (showReferences st) |} /\
      shown (showReferences
               (fst (handleSubmit toLowerCase template_toString fetch
                       now_submit now_reply st)))
            (int_toString (now_reply + 1)) = false) /\
  (forall e,
      template_toString (fld data "answer") = Throw e ->
      fst (handleSubmit toLowerCase template_toString fetch now_submit now_reply st)
      = {| question := [];
           loading := false;
           messages := messages st
                       ++ [user_message now_submit (question st);
                           apology_message now_reply];
           showReferences := showReferences st |}).
Proof.
  intros Hsubmitted Hres Hok Hdata Hnn. split.
  - intros answer_text Htext.
    rewrite (submit_ok_state fetch now_submit now_reply st
               Hsubmitted Hres Hok Hdata Hnn Htext).
    split; [reflexivity|].
    cbn [showReferences]. unfold shown. now rewrite lookup_assoc_set_same.
  - intros e Htext.
    apply submit_failed_state; [assumption|].
    rewrite (reply_readable fetch (question st) now_reply Hres Hok Hdata Hnn).
    unfold fld in Htext. rewrite Htext. cbn [bind]. eauto.
Qed.

(** X9.  Whatever the network does, a submit of a question that is not
    blank sends exactly one request, [POST /api/chat] with the question as
    typed (not trimmed); it keeps the earlier messages and appends exactly
    two, the user's and then one of the agent; it clears the input and
    leaves [loading] false. *)
Theorem submit_appends_two fetch now_submit now_reply st :
  ~ blank (question st) ->
  snd (handleSubmit toLowerCase template_toString fetch now_submit now_reply st)
  = [chat_request (question st)] /\
  (exists m,
      messages (fst (handleSubmit toLowerCase template_toString fetch
                       now_submit now_reply st))
      = messages st ++ [user_message now_submit (question st); m] /\
      type m = agent /\
      id m = int_toString (now_reply + 1)) /\
  question (fst (handleSubmit toLowerCase template_toString fetch
                   now_submit now_reply st)) = [] /\
  loading (fst (handleSubmit toLowerCase template_toString fetch
                  now_submit now_reply st)) = false.
Proof.
  intros Hsubmitted.
  rewrite (submit_not_blank fetch now_submit now_reply st Hsubmitted).
  split; [reflexivity|].
  destruct (reply_cases fetch (question st) now_reply)
    as [[e ->] | (res & data & answer_text & _ & _ & _ & _ & _ & ->)];
    cbn [try_catch fst];
    unfold on_error, setLoading, setQuestion, setMessages, setShowReferences;
    cbn [question loading messages showReferences];
    rewrite <- app_assoc; (split; [eexists; split; [reflexivity|]|]); auto.
Qed.

(** X10.  An ok response whose body is not JSON, or is [null], is treated
    like a failed call: the apology is appended and the record of shown
    references is left alone. *)
Theorem unreadable_reply_is_apology fetch now_submit now_reply st res :
  ~ blank (question st) ->
  fetch (chat_request (question st)) = Some res ->
  ok res = true ->
  json_body res = None \/ json_body res = Some JNull ->
  fst (handleSubmit toLowerCase template_toString fetch now_submit now_reply st)
  = {| question := [];
       loading := false;
       messages := messages st
                   ++ [user_message now_submit (question st);
                       apology_message now_reply];
       showReferences := showReferences st |}.
Proof.
  intros Hsubmitted Hres Hok Hbody.
  rewrite (submit_not_blank fetch now_submit now_reply st Hsubmitted).
  assert (Hthrow : exists e,
             reply toLowerCase template_toString fetch (question st) now_reply
             = Throw e).
  { unfold reply. rewrite Hres; cbn [await bind]. rewrite Hok; cbn [negb].
    destruct Hbody as [-> | ->]; cbn [await bind get]; eauto. }
  destruct Hthrow as [e ->].
  cbn [try_catch fst].
  unfold on_error, setLoading, setQuestion, setMessages;
    cbn [question loading messages showReferences].
  now rewrite <- app_assoc.
Qed.

(** X11.  When the clock does not run backwards between the two readings,
    the two messages of one submit get different ids (they are the React
    keys of the rows). *)
Theorem submit_ids_differ fetch now_submit now_reply st :
  ~ blank (question st) ->
  (now_submit <= now_reply)%Z ->
  exists u m,
    messages (fst (handleSubmit toLowerCase template_toString fetch
                     now_submit now_reply st))
    = messages st ++ [u; m] /\
    id u <> id m.
Proof.
  intros Hsubmitted Hclock.
  rewrite (submit_not_blank fetch now_submit now_reply st Hsubmitted).
  assert (Hids : int_toString now_submit <> int_toString (now_reply + 1)).
  { intros H; apply int_toString_inj in H; lia. }
  destruct (reply_cases fetch (question st) now_reply)
    as [[e ->] | (res & data & answer_text & _ & _ & _ & _ & _ & ->)];
    cbn [try_catch fst];
    unfold on_error, setLoading, setQuestion, setMessages, setShowReferences;
    cbn [question loading messages showReferences];
    rewrite <- app_assoc; eexists; eexists; (split; [reflexivity|]); exact Hids.
Qed.

End Page.

Lemma successful_submit_witness :
  messages (fst (handleSubmit lower_ascii show_string (respond data_full)
                   1700000000000 1700000000250
                   (typed "What is your return policy?")))
  = [user_message 1700000000000 (js "What is your return policy?");
     agent_message lower_ascii (js "Returns accepted within 30 days.")
       1700000000250 (js "What is your return policy?") data_full] /\
  messages (fst (handleSubmit lower_ascii show_string
                   (respond (JObj [(js "answer",
                                    JObj [(js "toString", JNum (Fin 1))])]))
                   1700000000000 1700000000250
                   (typed "What is your return policy?")))
  = [user_message 1700000000000 (js "What is your return policy?");
     apology_message 1700000000250].
Proof.
  split.
  - destruct (proj1 (@successful_submit lower_ascii show_string (respond data_full)
                1700000000000 1700000000250 (typed "What is your return policy?")
                {| Http.ok := true; Http.text := Some (js "");
                   Http.json_body := Some data_full |}
                data_full
                ltac:(intros Hblank; apply Forall_inv in Hblank; discriminate)
                eq_refl eq_refl eq_refl ltac:(discriminate))
              (js "Returns accepted within 30 days.") eq_refl) as [Hstate _].
    rewrite Hstate. reflexivity.
  - rewrite (proj2 (@successful_submit lower_ascii show_string
                (respond (JObj [(js "answer",
                                 JObj [(js "toString", JNum (Fin 1))])]))
                1700000000000 1700000000250 (typed "What is your return policy?")
                {| Http.ok := true; Http.text := Some (js "");
                   Http.json_body :=
                     Some (JObj [(js "answer",
                                  JObj [(js "toString", JNum (Fin 1))])]) |}
                (JObj [(js "answer", JObj [(js "toString", JNum (Fin 1))])])
                ltac:(intros Hblank; apply Forall_inv in Hblank; discriminate)
                eq_refl eq_refl eq_refl ltac:(discriminate))
              TypeError eq_refl).
    reflexivity.
Defined.

Lemma submit_appends_two_witness :
  snd (handleSubmit lower_ascii show_string offline
         1700000000000 1700000000250 (typed "  Hello?  "))
  = [chat_request (js "  Hello?  ")].
Proof.
  apply (@submit_appends_two lower_ascii show_string offline
           1700000000000 1700000000250 (typed "  Hello?  ")).
  intros Hblank.
  do 2 apply Forall_inv_tail in Hblank. apply Forall_inv in Hblank. discriminate.
Defined.

Lemma unreadable_reply_is_apology_witness :
  messages (fst (handleSubmit lower_ascii show_string (respond JNull)
                   1700000000000 1700000000250
                   (typed "What is your return policy?")))
  = [user_message 1700000000000 (js "What is your return policy?");
     apology_message 1700000000250].
Proof.
  rewrite (@unreadable_reply_is_apology lower_ascii show_string (respond JNull)
             1700000000000 1700000000250 (typed "What is your return policy?")
             {| Http.ok := true; Http.text := Some (js "");
                Http.json_body := Some JNull |}).
  - reflexivity.
  - intros Hblank. apply Forall_inv in Hblank. discriminate.
  - reflexivity.
  - reflexivity.
  - right; reflexivity.
Defined.

Lemma submit_ids_differ_witness :
  exists u m,
    messages (fst (handleSubmit lower_ascii show_string offline
                     1700000000000 1700000000000
                     (typed "What is your return policy?")))
    = [u; m] /\ id u <> id m.
Proof.
  apply (@submit_ids_differ lower_ascii show_string offline
           1700000000000 1700000000000 (typed "What is your return policy?")).
  - intros Hblank. apply Forall_inv in Hblank. discriminate.
  - lia.
Defined.

(** X12.  A click on the references button of a message flips whether
    its references are shown and touches nothing else: the other messages'
    references and the message list stay as they were, and a second click
    undoes the first. *)
Theorem toggle_flips_one (i : jsstring) (st : State) :
  shown (showReferences (toggleReferences i st)) i
  = negb (shown (showReferences st) i) /\
  (forall j, j <> i ->
     shown (showReferences (toggleReferences i st)) j
     = shown (showReferences st) j) /\
  (forall j,
     shown (showReferences (toggleReferences i (toggleReferences i st))) j
     = shown (showReferences st) j) /\
  messages (toggleReferences i st) = messages st.
Proof.
  assert (Hsame : forall m, shown (assoc_set i (negb (shown m i)) m) i
                            = negb (shown m i)).
  { intros m. unfold shown at 1. now rewrite lookup_assoc_set_same. }
  assert (Hother : forall m b j, j <> i -> shown (assoc_set i b m) j = shown m j).
  { intros m b j Hne. unfold shown. now rewrite (lookup_assoc_set_other b m Hne). }
  unfold toggleReferences, setShowReferences; cbn [showReferences messages].
  split; [apply Hsame|]. split; [intros j Hne; now apply Hother|].
  split; [|reflexivity].
  intros j.
  destruct (list_eq_dec N.eq_dec j i) as [->|Hne].
  - rewrite !Hsame. apply negb_involutive.
  - rewrite !Hother by assumption. reflexivity.
Qed.

Lemma toggle_flips_one_witness :
  shown (showReferences
           (toggleReferences (js "1700000000251")
              {| question := []; loading := false; messages := [];
                 showReferences := [(js "1700000000251", false);
                                    (js "1700000009001", true)] |}))
        (js "1700000009001") = true.
Proof.
  rewrite (proj1 (proj2 (@toggle_flips_one (js "1700000000251")
             {| question := []; loading := false; messages := [];
                showReferences := [(js "1700000000251", false);
                                   (js "1700000009001", true)] |}))
             (js "1700000009001")).
  - reflexivity.
  - intros H; vm_compute in H; discriminate.
Defined.

(** ** The loading animation *)

(** Linear arithmetic with division and remainder by constants. *)
Ltac zdm := Z.div_mod_to_equations; lia.

Lemma stage_at_in_range (i : Z) :
  (0 <= i < 3)%Z -> exists s, stage_at i = Some s.
Proof.
  intros Hi. unfold stage_at.
  destruct (Z.ltb_spec i 0); [lia|].
  assert (Hcases : i = 0%Z \/ i = 1%Z \/ i = 2%Z) by lia.
  destruct Hcases as [-> | [-> | ->]]; simpl; eauto.
Qed.

Lemma tick_invariant (n : nat) :
  fst (after_ticks n) = ((Z.of_nat n / 4) mod 3)%Z /\
  dots (snd (after_ticks n)) = (Z.of_nat n mod 4)%Z /\
  (0 < n -> stage (snd (after_ticks n)) = stage_at ((Z.of_nat n / 4) mod 3))%nat.
Proof.
  induction n as [|n (Hidx & Hdots & _)].
  - split; [reflexivity|]. split; [reflexivity | lia].
  - change (after_ticks (S n)) with (tick (after_ticks n)).
    destruct (after_ticks n) as [i ls].
    cbn [fst snd] in Hidx, Hdots.
    unfold tick; cbv beta iota zeta. rewrite Hdots, Hidx.
    change (Z.of_nat (List.length stages)) with 3%Z.
    rewrite Nat2Z.inj_succ.
    set (z := Z.of_nat n) in *.
    assert (Hz : (0 <= z)%Z) by (subst z; lia).
    rewrite (Z.rem_mod_nonneg (z mod 4 + 1) 4) by zdm.
    rewrite (Z.rem_mod_nonneg ((z / 4) mod 3 + 1) 3) by zdm.
    assert (Hd : ((z mod 4 + 1) mod 4 = Z.succ z mod 4)%Z) by zdm.
    assert (Hi : ((if ((z mod 4 + 1) mod 4 =? 0)%Z
                   then ((z / 4) mod 3 + 1) mod 3
                   else (z / 4) mod 3) = (Z.succ z / 4) mod 3)%Z).
    { destruct (Z.eqb_spec ((z mod 4 + 1) mod 4) 0); zdm. }
    rewrite Hi, Hd. cbn [fst snd dots stage]. auto.
Qed.

(** X13.  While the page waits, the animation after [n] callbacks of the
    timer shows [n mod 4] dots and the stage number [(n / 4) mod 3]: the
    dots stay below 4, the stage is never [null] once the first callback
    has run, and the whole display repeats every 12 callbacks. *)
Theorem loading_animation_cycle (n : nat) :
  (0 < n)%nat ->
  after_ticks n
  = (((Z.of_nat n / 4) mod 3)%Z,
     {| stage := stage_at ((Z.of_nat n / 4) mod 3);
        dots := (Z.of_nat n mod 4)%Z |}) /\
  (0 <= dots (snd (after_ticks n)) < 4)%Z /\
  stage (snd (after_ticks n)) <> None /\
  after_ticks (n + 12) = after_ticks n.
Proof.
  intros Hn.
  assert (Hform : forall k, (0 < k)%nat ->
            after_ticks k
            = (((Z.of_nat k / 4) mod 3)%Z,
               {| stage := stage_at ((Z.of_nat k / 4) mod 3);
                  dots := (Z.of_nat k mod 4)%Z |})).
  { intros k Hk. destruct (tick_invariant k) as (Hidx & Hdots & Hstage).
    destruct (after_ticks k) as [i [s d]]. cbn [fst snd dots stage] in *.
    now rewrite Hidx, Hdots, (Hstage Hk). }
  rewrite (Hform (n + 12)%nat) by lia.
  rewrite (Hform n Hn). cbn [snd dots stage].
  split; [reflexivity|]. split; [zdm|]. split.
  - destruct (@stage_at_in_range ((Z.of_nat n / 4) mod 3)) as [s ->];
      [zdm | discriminate].
  - rewrite Nat2Z.inj_add.
    change (Z.of_nat 12) with 12%Z.
    replace ((Z.of_nat n + 12) mod 4)%Z with (Z.of_nat n mod 4)%Z by zdm.
    replace (((Z.of_nat n + 12) / 4) mod 3)%Z
      with ((Z.of_nat n / 4) mod 3)%Z by zdm.
    reflexivity.
Qed.

Lemma loading_animation_cycle_witness :
  after_ticks 5 = (1%Z, {| stage := Some searching; dots := 1 |}).
Proof.
  rewrite (proj1 (@loading_animation_cycle 5 ltac:(lia))).
  reflexivity.
Defined.

(** X14.  The waiting text is empty before the first callback; after [n]
    callbacks it is the sentence of the current stage followed by
    [n mod 4] dots.  [getLoadingMessage] never fails during the animation. *)
Theorem loading_message_after_ticks (n : nat) :
  (0 < n)%nat ->
  getLoadingMessage idle = Some [] /\
  exists s,
    stage (snd (after_ticks n)) = Some s /\
    getLoadingMessage (snd (after_ticks n))
    = Some (stage_message s ++ repeat dot (n mod 4)).
Proof.
  intros Hn. split; [reflexivity|].
  destruct (tick_invariant n) as (_ & Hdots & Hstage).
  destruct (@stage_at_in_range ((Z.of_nat n / 4) mod 3)) as [s Hs]; [zdm|].
  exists s. rewrite (Hstage Hn). split; [exact Hs|].
  unfold getLoadingMessage. rewrite (Hstage Hn), Hs, Hdots.
  destruct (Z.ltb_spec (Z.of_nat n mod 4) 0); [zdm|].
  do 3 f_equal.
  change 4%Z with (Z.of_nat 4). rewrite <- Nat2Z.inj_mod. apply Nat2Z.id.
Qed.

Lemma loading_message_after_ticks_witness :
  getLoadingMessage (snd (after_ticks 7))
  = Some (js "Searching through knowledge base...").
Proof.
  destruct (@loading_message_after_ticks 7 ltac:(lia)) as (_ & s & Hs & Hmsg).
  rewrite Hmsg.
  assert (Hsearch : s = searching).
  { vm_compute in Hs. now injection Hs as <-. }
  rewrite Hsearch. reflexivity.
Defined.

(** ** Colours, labels, topic *)

Lemma color_of_finite (q : Q) :
  (8 < q /\ getConfidenceColor (Fin q) = green)%Q \/
  (q < 5 /\ getConfidenceColor (Fin q) = red)%Q \/
  (5 <= q /\ q <= 8 /\ getConfidenceColor (Fin q) = yellow)%Q.
Proof.
  unfold getConfidenceColor, gt, lt.
  destruct (Qlt_bool 8 q) eqn:H8.
  - left. split; [now apply Qlt_bool_iff | reflexivity].
  - assert (Hle8 : (q <= 8)%Q).
    { apply Qnot_lt_le. intros H. apply Qlt_bool_iff in H. congruence. }
    destruct (Qlt_bool q 5) eqn:H5.
    + right; left. split; [now apply Qlt_bool_iff | reflexivity].
    + right; right. repeat split; auto.
      apply Qnot_lt_le. intros H. apply Qlt_bool_iff in H. congruence.
Qed.

(** X15.  The colour never gets worse as the score grows: with red below
    yellow below green, a finite score that is at least another gets a
    colour that is at least the other's. *)
Theorem color_is_monotone (a b : Q) :
  (a <= b)%Q ->
  (color_rank (getConfidenceColor (Fin a))
   <= color_rank (getConfidenceColor (Fin b)))%nat.
Proof.
  intros Hab.
  assert (Hg : color_rank green = 2%nat) by reflexivity.
  assert (Hy : color_rank yellow = 1%nat) by reflexivity.
  assert (Hr : color_rank red = 0%nat) by reflexivity.
  destruct (color_of_finite a) as [[Ha ->] | [[Ha ->] | (Ha5 & Ha8 & ->)]];
    destruct (color_of_finite b) as [[Hb ->] | [[Hb ->] | (Hb5 & Hb8 & ->)]];
    rewrite ?Hg, ?Hy, ?Hr; try lia; exfalso.
  - apply (Qlt_irrefl 8).
    apply (Qlt_trans _ a); [assumption|].
    apply (Qle_lt_trans _ b); [assumption|].
    apply (Qlt_trans _ 5); [assumption | reflexivity].
  - apply (Qlt_irrefl 8).
    apply (Qlt_le_trans _ a); [assumption|].
    apply (Qle_trans _ b); assumption.
  - apply (Qlt_irrefl 5).
    apply (Qle_lt_trans _ a); [assumption|].
    apply (Qle_lt_trans _ b); assumption.
Qed.

Lemma color_is_monotone_witness :
  (color_rank (getConfidenceColor (Fin 4))
   <= color_rank (getConfidenceColor (Fin (17 # 2))))%nat.
Proof.
  apply color_is_monotone.
  unfold Qle; simpl; lia.
Defined.

(** X16.  The label of a score keeps the length of its key, holds no
    underscore, and is the key itself when the key has none. *)
Theorem score_label_has_no_underscore (key : jsstring) :
  List.length (score_label key) = List.length key /\
  ~ In underscore (score_label key) /\
  (~ In underscore key -> score_label key = key).
Proof.
  unfold score_label. split; [apply length_map|]. split.
  - intros Hin. apply in_map_iff in Hin as (c & Hc & _).
    destruct (N.eqb_spec c underscore); [discriminate Hc | congruence].
  - intros Hnone. induction key as [|c key IH]; [reflexivity|].
    cbn [map]. destruct (N.eqb_spec c underscore) as [->|_].
    + exfalso; apply Hnone; now left.
    + f_equal. apply IH. intros Hin; apply Hnone; now right.
Qed.

Lemma score_label_has_no_underscore_witness :
  score_label (js "relevance") = js "relevance" /\
  score_label (js "factual_accuracy") = js "factual accuracy".
Proof.
  split; [|reflexivity].
  apply (proj2 (proj2 (score_label_has_no_underscore (js "relevance")))).
  vm_compute. intuition discriminate.
Defined.

Lemma join_cons_char (sep : jsstring) (c : jschar) (piece : jsstring) pieces :
  join sep ((c :: piece) :: pieces) = c :: join sep (piece :: pieces).
Proof. destruct pieces; reflexivity. Qed.

Lemma join_nil_cons (sep : jsstring) (x : jsstring) pieces :
  join sep ([] :: x :: pieces) = sep ++ join sep (x :: pieces).
Proof. reflexivity. Qed.

Lemma firstn_split_nonempty (sep : jschar) (n : nat) (s : jsstring) :
  exists x rest, firstn (S n) (split sep s) = x :: rest.
Proof.
  pose proof (split_nonempty sep s) as Hne.
  destruct (split sep s) as [|x l]; [congruence|].
  now exists x, (firstn n l).
Qed.

(** Joining the pieces again gives the string back. *)
Lemma join_split (sep : jschar) (s : jsstring) :
  join [sep] (split sep s) = s.
Proof.
  induction s as [|c r IH]; [reflexivity|].
  simpl split. destruct (N.eqb_spec c sep) as [->|Hne].
  - destruct (split sep r) as [|x l] eqn:Hsplit;
      [exfalso; exact (split_nonempty _ _ Hsplit)|].
    rewrite join_nil_cons, IH. reflexivity.
  - destruct (split sep r) as [|piece pieces] eqn:Hsplit;
      [exfalso; exact (split_nonempty _ _ Hsplit)|].
    rewrite join_cons_char, IH. reflexivity.
Qed.

(** The first [n] pieces, joined again, are a prefix of the string. *)
Lemma join_firstn_split_prefix (sep : jschar) (n : nat) (s : jsstring) :
  exists rest, s = join [sep] (firstn n (split sep s)) ++ rest.
Proof.
  revert n; induction s as [|c r IH]; intros n.
  - destruct n as [|[|n]]; now exists [].
  - destruct n as [|n]; [now exists (c :: r)|].
    simpl split. destruct (N.eqb_spec c sep) as [->|Hne].
    + cbn [firstn]. destruct n as [|n]; [now exists (sep :: r)|].
      destruct (firstn_split_nonempty sep n r) as (x & l & Hx).
      destruct (IH (S n)) as [rest Hrest].
      rewrite Hx in *. rewrite join_nil_cons.
      exists rest. cbn [app]. now rewrite <- Hrest.
    + destruct (IH (S n)) as [rest Hrest].
      destruct (split sep r) as [|piece pieces] eqn:Hsplit;
        [exfalso; exact (split_nonempty _ _ Hsplit)|].
      cbn [firstn] in *. rewrite join_cons_char.
      exists rest. cbn [app]. now rewrite <- Hrest.
Qed.

Lemma count_join (sep : jschar) (l : list jsstring) :
  Forall (fun piece => ~ In sep piece) l ->
  count_occ N.eq_dec (join [sep] l) sep = (List.length l - 1)%nat.
Proof.
  induction l as [|x l IH]; intros Hall; [reflexivity|].
  inversion Hall as [|? ? Hx Hl]; subst.
  destruct l as [|y l].
  - cbn [join List.length]. now apply count_occ_not_In.
  - change (join [sep] (x :: y :: l)) with (x ++ [sep] ++ join [sep] (y :: l)).
    rewrite !count_occ_app.
    pose proof (IH Hl) as Hrest.
    pose proof (proj1 (count_occ_not_In N.eq_dec x sep) Hx) as Hzero.
    cbn [count_occ]. destruct (N.eq_dec sep sep); [|congruence].
    cbn [List.length] in *. unfold jschar, jsstring in *. lia.
Qed.

(** X17.  The topic that opens the agent's reply is a prefix of the
    lower-cased question; it holds at most two spaces (three pieces); and
    it is the whole lower-cased question when that has at most three
    pieces. *)
Theorem topic_is_prefix (toLowerCase : jsstring -> jsstring) (q : jsstring) :
  (exists rest, toLowerCase q = questionTopic toLowerCase q ++ rest) /\
  (count_occ N.eq_dec (questionTopic toLowerCase q) space <= 2)%nat /\
  ((List.length (split space (toLowerCase q)) <= 3)%nat ->
   questionTopic toLowerCase q = toLowerCase q).
Proof.
  unfold questionTopic. split; [apply join_firstn_split_prefix|]. split.
  - rewrite count_join.
    + rewrite length_firstn. lia.
    + pose proof (RouteExtras.split_pieces_without_sep space (toLowerCase q))
        as Hall.
      rewrite <- (firstn_skipn 3 (split space (toLowerCase q))) in Hall.
      now apply Forall_app in Hall.
  - intros Hshort. rewrite firstn_all2 by assumption. apply join_split.
Qed.

Lemma topic_is_prefix_witness :
  questionTopic lower_ascii (js "Return policy?") = js "return policy?" /\
  questionTopic lower_ascii (js "What is your return policy?") = js "what is your".
Proof.
  split; [|reflexivity].
  rewrite (proj2 (proj2 (topic_is_prefix lower_ascii (js "Return policy?")))).
  - reflexivity.
  - vm_compute. lia.
Defined.

End ChatExtras.

(* ===================================================================== *)
(** * The page in front of the endpoint *)
(* ===================================================================== *)

Module AppExtras.
Import JS Http ChatPage ChatView Spec Samples RouteFacts ChatFacts App.

Lemma success_payload_references_field a urls sc :
  opt_get (Some (Route.success_payload a (map Route.entry_of urls) sc))
          (js "references")
  = Some (JArr (map Route.entry_of urls)).
Proof.
  rewrite <- (written_entries urls) at 2.
  destruct a; reflexivity.
Qed.

Lemma success_payload_not_null a entries sc :
  Route.success_payload a entries sc <> JNull.
Proof. discriminate. Qed.

(** The block the endpoint chose is truthy; on the page it still is,
    unless it was an infinite number. *)
Lemma delivered_scores_truthy (v : value) (d : list (jsstring * json)) :
  truthy (option_map written (or_else v (Some (JObj d))))
  = negb (is_infinite v).
Proof.
  unfold or_else.
  destruct v as [[| [|] | [q| | |] | [|c s] | l | props]|]; try reflexivity.
  cbn [truthy]. destruct (Qeq_bool q 0) eqn:Hq; cbn [negb]; [reflexivity|].
  cbn [option_map written truthy is_infinite]. now rewrite Hq.
Qed.

Lemma map_result_throws {A B} (f : A -> Result B) (l : list A) (x : A) :
  In x l -> (exists e, f x = Throw e) -> exists e, map_result f l = Throw e.
Proof.
  intros Hin [e He].
  induction l as [|y l IH]; [contradiction|].
  cbn [map_result].
  destruct (f y) as [b|e'] eqn:Hy; cbn [bind]; [|eauto].
  destruct Hin as [-> | Hin]; [congruence|].
  destruct (IH Hin) as [e'' ->]. cbn [bind]. eauto.
Qed.

Section Served.

Variable stringify : json -> jsstring.
Variable toLowerCase : jsstring -> jsstring.
Variable template_toString : value -> Result jsstring.
Variable toNumber : json -> number.
Variable toFixed : number -> jsstring.

(** What the page's request receives from the endpoint. *)
Lemma api_chat_response env backend q :
  api_chat stringify env backend (chat_request q)
  = Some {| ok := status_ok (Route.status
                    (Route.POST env backend (Some (JObj [(js "question", JStr q)]))));
            Http.text := Some (stringify (Route.payload
                    (Route.POST env backend (Some (JObj [(js "question", JStr q)])))));
            json_body := Some (Route.payload
                    (Route.POST env backend (Some (JObj [(js "question", JStr q)])))) |}.
Proof. reflexivity. Qed.

(** X18.  End to end, when a stage of the endpoint fails (backend
    unreachable, error status, unreadable or malformed answer), the page
    shows the user's question followed by the fixed apology, with no
    references and no scores. *)
Theorem backend_failure_shows_apology env backend now_submit now_reply st :
  ~ blank (question st) ->
  Spec.stage_fails env backend (Some (JObj [(js "question", JStr (question st))])) ->
  fst (handleSubmit toLowerCase template_toString
         (api_chat stringify env backend) now_submit now_reply st)
  = {| question := [];
       loading := false;
       messages := messages st
                   ++ [user_message now_submit (question st);
                       apology_message now_reply];
       showReferences := showReferences st |}.
Proof.
  intros Hsubmitted Hfail.
  apply ChatExtras.submit_failed_state; [assumption|].
  unfold reply. rewrite api_chat_response.
  rewrite (stage_fails_error_response Hfail).
  cbn [await bind ok]. eexists; reflexivity.
Qed.

(** X19.  End to end, when the backend answers with a references array
    of strings and the answer the endpoint delivers can be converted to
    text, the page appends the agent's reply with one
    [{page_url, page_title}] entry per reference and with the scores block
    as the endpoint wrote it (the backend's, or the four zeros).  The
    guard of the evaluation-scores block passes unless the backend's
    scores were an infinite number (written as [null]); the block then
    evaluates its rows: with no evaluation from the backend they are the
    four default rows, all red, and a score that is not a number makes the
    block throw.  The guard of the references block passes exactly when
    the backend listed at least one reference. *)
Theorem backend_answer_is_shown env backend now_submit now_reply st data urls
    answer_text :
  ~ blank (question st) ->
  backend_answers env backend
    (Some (JObj [(js "question", JStr (question st))])) data ->
  string_references data urls ->
  template_toString (option_map written (fld data "answer")) = Ok answer_text ->
  exists m,
    messages (fst (handleSubmit toLowerCase template_toString
                     (api_chat stringify env backend) now_submit now_reply st))
    = messages st ++ [user_message now_submit (question st); m] /\
    ChatPage.text m
    = questionTopic toLowerCase (question st) ++ js ". Here's what I found:"
      ++ [newline; newline] ++ answer_text /\
    references m = Present (Some (JArr (map Route.entry_of urls))) /\
    scores m = Present (option_map written
                          (or_else (backend_scores data)
                                   (Some Route.default_scores))) /\
    renders_scores m = negb (is_infinite (backend_scores data)) /\
    renders_references toNumber m = Nat.ltb 0 (List.length urls) /\
    (scores_missing data ->
     evaluation_rows toFixed m
     = Ok (Some [(js "factual accuracy", red, toFixed (Fin 0));
                 (js "relevance", red, toFixed (Fin 0));
                 (js "completeness", red, toFixed (Fin 0));
                 (js "context usage", red, toFixed (Fin 0))])) /\
    (forall props k v,
        read (scores m) = Some (JObj props) ->
        In (k, v) props ->
        (forall n, v <> JNum n) ->
        exists e, evaluation_rows toFixed m = Throw e).
Proof.
  intros Hsubmitted Hans Hrefs Htext.
  pose proof (POST_answered Hans) as Hpost.
  unfold string_references, fld in Hrefs.
  destruct data as [| | | | |props]; try discriminate.
  cbn [opt_get] in Hrefs.
  rewrite (transform_object _ _ Hrefs) in Hpost.
  destruct (or_else_default (backend_scores (JObj props)) Route.default_scores)
    as (sc & Hsc & _).
  rewrite Hsc in Hpost.
  change (Route.NextResponse_json
            [(js "answer", assoc (js "answer") props);
             (js "references", Some (JArr (map Route.entry_of urls)));
             (js "scores", Some sc)] 200)
    with {| Route.status := 200;
            Route.payload := Route.success_payload (assoc (js "answer") props)
                               (map Route.entry_of urls) sc |} in Hpost.
  pose proof (RouteExtras.success_payload_answer (assoc (js "answer") props)
                (map Route.entry_of urls) sc) as Hanswer.
  pose proof (success_payload_scores (assoc (js "answer") props)
                (map Route.entry_of urls) sc) as Hscores.
  unfold fld in Hanswer, Hscores, Htext. cbn [opt_get] in Htext.
  exists (agent_message toLowerCase answer_text now_reply (question st)
            (Route.success_payload (assoc (js "answer") props)
               (map Route.entry_of urls) sc)).
  split.
  - erewrite ChatExtras.submit_ok_state;
      [reflexivity | assumption | apply api_chat_response
      | rewrite Hpost; reflexivity | rewrite Hpost; reflexivity
      | try rewrite Hpost; cbn [Route.payload]; apply success_payload_not_null
      | try rewrite Hpost; cbn [Route.payload]; rewrite Hanswer; exact Htext].
  - assert (Hguard : renders_scores
                       (agent_message toLowerCase answer_text now_reply (question st)
                          (Route.success_payload (assoc (js "answer") props)
                             (map Route.entry_of urls) sc))
                     = negb (is_infinite (backend_scores (JObj props)))).
    { unfold renders_scores, agent_message; cbn [type scores read].
      rewrite Hscores.
      rewrite <- (delivered_scores_truthy (backend_scores (JObj props))
                    [(js "factual_accuracy", JNum (Fin 0));
                     (js "relevance", JNum (Fin 0));
                     (js "completeness", JNum (Fin 0));
                     (js "context_usage", JNum (Fin 0))]).
      change (JObj [(js "factual_accuracy", JNum (Fin 0));
                    (js "relevance", JNum (Fin 0));
                    (js "completeness", JNum (Fin 0));
                    (js "context_usage", JNum (Fin 0))])
        with Route.default_scores.
      now rewrite Hsc. }
    split; [reflexivity|].
    split; [unfold agent_message; cbn [references];
            now rewrite success_payload_references_field|].
    split; [unfold agent_message; cbn [scores]; now rewrite Hscores, Hsc|].
    split; [exact Hguard|].
    split.
    { unfold renders_references, agent_message; cbn [type references read].
      rewrite success_payload_references_field.
      cbn [truthy length_positive andb]. now rewrite length_map. }
    split.
    + intros Hmiss.
      apply RouteClaims.scores_missing_none in Hmiss.
      unfold evaluation_rows. rewrite Hguard, Hmiss.
      unfold agent_message; cbn [scores read is_infinite negb].
      rewrite Hscores.
      rewrite Hmiss in Hsc. cbn [or_else truthy] in Hsc. injection Hsc as <-.
      reflexivity.
    + intros rows k v Hread Hin Hbad.
      unfold evaluation_rows.
      assert (Hrender : renders_scores
                (agent_message toLowerCase answer_text now_reply (question st)
                   (Route.success_payload (assoc (js "answer") props)
                      (map Route.entry_of urls) sc)) = true).
      { unfold renders_scores. rewrite Hread. reflexivity. }
      rewrite Hrender, Hread. cbn [entries bind].
      destruct (@map_result_throws _ _ (score_row toFixed) rows (k, v) Hin)
        as [e ->]; [|cbn [bind]; eauto].
      unfold score_row; cbn [snd].
      destruct v; try (eexists; reflexivity).
      exfalso; now apply (Hbad n).
Qed.

(** X20.  End to end, the page's state depends on the backend only
    through its answer to the one request [POST API_URL/generate] whose
    body is [{question}] with the question exactly as typed: two backends
    that agree on that request leave the page in the same state. *)
Theorem question_reaches_backend_as_typed env (backend1 backend2 : Fetch)
    now_submit now_reply st :
  backend1 (Route.backend_request env (Some (JStr (question st))))
  = backend2 (Route.backend_request env (Some (JStr (question st)))) ->
  handleSubmit toLowerCase template_toString (api_chat stringify env backend1)
    now_submit now_reply st
  = handleSubmit toLowerCase template_toString (api_chat stringify env backend2)
      now_submit now_reply st.
Proof.
  intros Hagree.
  apply ChatExtras.submit_depends_on_chat_request.
  rewrite !api_chat_response.
  unfold Route.POST, Route.POST_try; cbn [await bind get assoc].
  change (str_eqb (js "question") (js "question")) with true; cbn iota.
  cbn [bind]. now rewrite Hagree.
Qed.

End Served.

Lemma backend_failure_shows_apology_witness :
  messages (fst (handleSubmit lower_ascii show_string
                   (api_chat (fun _ => []) None refuse)
                   1700000000000 1700000000250
                   (typed "What is your return policy?")))
  = [user_message 1700000000000 (js "What is your return policy?");
     apology_message 1700000000250].
Proof.
  rewrite (@backend_failure_shows_apology (fun _ => []) lower_ascii show_string
             None refuse 1700000000000 1700000000250
             (typed "What is your return policy?")).
  - reflexivity.
  - intros Hblank. apply Forall_inv in Hblank. discriminate.
  - eapply backend_not_ok; reflexivity.
Defined.

Lemma backend_answer_is_shown_witness :
  exists m,
    messages (fst (handleSubmit lower_ascii show_string
                     (api_chat (fun _ => []) None (respond data_full))
                     1700000000000 1700000000250
                     (typed "What is your return policy?")))
    = [user_message 1700000000000 (js "What is your return policy?"); m] /\
    renders_scores m = true /\
    renders_references number_of m = true.
Proof.
  destruct (@backend_answer_is_shown (fun _ => []) lower_ascii show_string number_of
              (fun _ => [])
              None (respond data_full) 1700000000000 1700000000250
              (typed "What is your return policy?") data_full
              [returns_url; faq_url] (js "Returns accepted within 30 days."))
    as (m & Hmsgs & _ & _ & _ & Hsc & Hrefs & _).
  - intros Hblank. apply Forall_inv in Hblank. discriminate.
  - unfold backend_answers, respond. do 3 eexists; repeat split; reflexivity.
  - reflexivity.
  - reflexivity.
  - exists m; repeat split; assumption.
Defined.

Lemma question_reaches_backend_as_typed_witness :
  handleSubmit lower_ascii show_string
    (api_chat (fun _ => []) None
       (fun req => if str_eqb (url req) (js "http://localhost:8000/generate")
                   then respond data_full req else None))
    1700000000000 1700000000250 (typed "  Hello?  ")
  = handleSubmit lower_ascii show_string
      (api_chat (fun _ => []) None (respond data_full))
      1700000000000 1700000000250 (typed "  Hello?  ").
Proof.
  apply question_reaches_backend_as_typed.
  reflexivity.
Defined.

End AppExtras.
